(** * container_restarter.py: a shallow embedding and its verified properties

    The program polls Portainer on a fixed interval and restarts one named
    container once per day at a configured time.  It has two classes,
    [PortainerAPI] (the HTTP client) and [ContainerRestarter] (the scheduler
    loop), and a [main] entry point.

    Modelling choices:
    - Python [str] is [string]; a value that may be [None] is an [option].
    - A naive [datetime] is the number of microseconds since midnight of
      the day with ordinal 0, so that [timedelta] arithmetic is addition
      and comparison of datetimes is comparison of integers.
    - The outside world (the clock, the Portainer server, Ctrl-C) is a
      record of oracles together with the history of what the program has
      done so far; every method is a function in a state-and-exception
      monad over the object it mutates and the world.
    - Exceptions are values of [exn]; [KeyboardInterrupt] is the one that
      [except Exception] does not catch.
    - Calls to [logger] have no effect on the control flow or on the state
      and are left out. *)

From Stdlib Require Import ZArith String Ascii List Bool Lia.
From stdpp Require Import base option list strings gmap.

Local Open Scope string_scope.
Local Open Scope Z_scope.

(** ** Python values *)

(** Truth value of an [Optional[str]]: [None] and [''] are falsy. *)
Definition truthy (o : option string) : bool :=
  match o with
  | Some s => negb (String.eqb s "")
  | None => false
  end.

(** [s.rstrip(c)]: drop every trailing occurrence of the character [c]. *)
Fixpoint rstrip (c : ascii) (s : string) : string :=
  match s with
  | EmptyString => EmptyString
  | String a s' =>
      match rstrip c s' with
      | EmptyString => if Ascii.eqb a c then EmptyString else String a EmptyString
      | t => String a t
      end
  end.

(** [s.startswith(p)]. *)
Definition startswith (s p : string) : bool := String.prefix p s.

(** [x in names] for a list of strings. *)
Definition str_in (x : string) (names : list string) : bool :=
  existsb (String.eqb x) names.

(** ** Exceptions *)

Inductive exn : Type :=
| ValueError (msg : string)
| OverflowError (msg : string)
| TypeError (msg : string)
| AttributeError (msg : string)
| RequestException (msg : string)
| KeyboardInterrupt.

(** [isinstance(e, Exception)]: what an [except Exception] clause catches. *)
Definition is_Exception (e : exn) : bool :=
  match e with
  | KeyboardInterrupt => false
  | _ => true
  end.

Definition result (A : Type) : Type := (exn + A)%type.

(** ** Numbers and times read from text *)

Definition is_digit (a : ascii) : bool :=
  let n := Z.of_N (N_of_ascii a) in (48 <=? n) && (n <=? 57).

Definition digit_val (a : ascii) : Z := Z.of_N (N_of_ascii a) - 48.

Definition in_range (lo hi : Z) (a : ascii) : bool :=
  is_digit a && (lo <=? digit_val a) && (digit_val a <=? hi).

(** The hour directive [%H] of [strptime] is the regular expression
    [2[0-3]|[0-1]\d|\d]: the alternatives are tried in this order and each
    returns the value read and the rest of the text. *)
Definition directive_H (s : list ascii) : list (Z * list ascii) :=
  match s with
  | a :: b :: rest =>
      (if (Ascii.eqb a "2"%char && in_range 0 3 b) || (in_range 0 1 a && is_digit b)
       then [(10 * digit_val a + digit_val b, rest)] else [])
      ++ (if is_digit a then [(digit_val a, b :: rest)] else [])
  | [a] => if is_digit a then [(digit_val a, [])] else []
  | [] => []
  end.

(** The minute directive [%M] is [[0-5]\d|\d]. *)
Definition directive_M (s : list ascii) : list (Z * list ascii) :=
  match s with
  | a :: b :: rest =>
      (if in_range 0 5 a && is_digit b
       then [(10 * digit_val a + digit_val b, rest)] else [])
      ++ (if is_digit a then [(digit_val a, b :: rest)] else [])
  | [a] => if is_digit a then [(digit_val a, [])] else []
  | [] => []
  end.

Definition literal (c : ascii) (s : list ascii) : list (list ascii) :=
  match s with
  | a :: rest => if Ascii.eqb a c then [rest] else []
  | [] => []
  end.

(** All the ways the pattern [%H:%M] matches a prefix of the text, in the
    order a backtracking matcher finds them. *)
Definition matches_HM (s : list ascii) : list (Z * Z * list ascii) :=
  '(h, s1) ← directive_H s;
  s2 ← literal ":"%char s1;
  '(m, s3) ← directive_M s2;
  [(h, m, s3)].

(** [datetime.strptime(text, '%H:%M').time()], as (hour, minute): the first
    match is taken, and text left over after it is an error ("unconverted
    data remains"), as is no match at all. *)
Definition strptime_HM (text : string) : option (Z * Z) :=
  match matches_HM (list_ascii_of_string text) with
  | (h, m, []) :: _ => Some (h, m)
  | _ => None
  end.

(** Characters that [int()] strips around a number. *)
Definition is_space (a : ascii) : bool :=
  let n := Z.of_N (N_of_ascii a) in
  ((9 <=? n) && (n <=? 13)) || ((28 <=? n) && (n <=? 32)).

Fixpoint lstrip_space (s : list ascii) : list ascii :=
  match s with
  | a :: rest => if is_space a then lstrip_space rest else s
  | [] => []
  end.

(** Digits of a decimal literal, single underscores allowed between two
    digits.  [prev] tells whether the previous character was a digit;
    the result is the list of digits read and the rest of the text. *)
Fixpoint int_digits (prev : bool) (s : list ascii) : option (list ascii * list ascii) :=
  match s with
  | a :: rest =>
      if is_digit a then
        match int_digits true rest with
        | Some (ds, r) => Some (a :: ds, r)
        | None => None
        end
      else if Ascii.eqb a "_"%char then
        if prev then
          match rest with
          | b :: _ => if is_digit b then int_digits false rest else None
          | [] => None
          end
        else None
      else if prev then Some ([], s) else None
  | [] => if prev then Some ([], []) else None
  end.

Definition digits_value (ds : list ascii) : Z :=
  fold_left (fun acc d => 10 * acc + digit_val d) ds 0.

(** [int(text)] in base 10; [None] stands for [ValueError]. *)
Definition py_int (text : string) : option Z :=
  let s := lstrip_space (list_ascii_of_string text) in
  let '(sign, s) :=
    match s with
    | a :: rest =>
        if Ascii.eqb a "-"%char then (-1, rest)
        else if Ascii.eqb a "+"%char then (1, rest)
        else (1, s)
    | [] => (1, s)
    end in
  match int_digits false s with
  | Some (ds, rest) =>
      match lstrip_space rest with
      | [] => if (4300 <? Z.of_nat (length ds)) then None
              else Some (sign * digits_value ds)
      | _ => None
      end
  | None => None
  end.

(** ** Dates and times *)

Definition datetime : Type := Z.

Definition usec_per_day : Z := 86400000000.
Definition usec_per_hour : Z := 3600000000.
Definition usec_per_minute : Z := 60000000.

(** [dt.date()], as the ordinal of the day. *)
Definition date_of (dt : datetime) : Z := dt / usec_per_day.
(** [dt.time().hour] and [dt.time().minute]. *)
Definition hour_of (dt : datetime) : Z := (dt mod usec_per_day) / usec_per_hour.
Definition minute_of (dt : datetime) : Z := (dt mod usec_per_hour) / usec_per_minute.

(** [timedelta(hours=h, minutes=m)]. *)
Definition timedelta (h m : Z) : Z := h * usec_per_hour + m * usec_per_minute.

(** A datetime built from its parts, for writing examples. *)
Definition mk_datetime (day h m s : Z) : datetime :=
  day * usec_per_day + h * usec_per_hour + m * usec_per_minute + s * 1000000.

(** ** The outside world *)

Definition headers : Type := list (string * string).

(** One entry of the container list that Docker returns. *)
Record container : Type := mk_container {
  Names : option (list string);   (* [None]: the object has no 'Names' key *)
  Id : string
}.

Inductive request : Type :=
| GET (url : string) (hdrs : headers)
| POST (url : string) (hdrs : headers) (json : option (list (string * option string))).

(** The decoded body of a reply, [response.json()]. *)
Inductive json_body : Type :=
| JToken (jwt : string)               (* an object with the key 'jwt' *)
| JContainers (cs : list container)   (* a list of container objects *)
| JInvalid.                           (* not JSON *)

(** What a request comes to: a reply with a good status, or an exception
    raised by [requests.get], [requests.post] or [raise_for_status]
    (including a Ctrl-C while waiting). *)
Inductive response : Type :=
| Reply (body : json_body)
| Failure (e : exn).

(** The oracles ([clock], [server], [ctrl_c]) say what the world answers to
    the program's i-th clock reading, request and sleep; the history
    ([reads], [sent], [naps]) records what the program has done. *)
Record World : Type := mk_World {
  clock : nat -> datetime;
  server : nat -> request -> response;
  ctrl_c : nat -> bool;
  reads : nat;
  sent : list request;
  naps : list Z
}.

Definition tick_clock (w : World) : World :=
  mk_World (clock w) (server w) (ctrl_c w) (S (reads w)) (sent w) (naps w).
Definition record_request (q : request) (w : World) : World :=
  mk_World (clock w) (server w) (ctrl_c w) (reads w) (sent w ++ [q]) (naps w).
Definition record_nap (secs : Z) (w : World) : World :=
  mk_World (clock w) (server w) (ctrl_c w) (reads w) (sent w) (naps w ++ [secs]).

(** ** The monad of methods: object state, world, exceptions *)

Definition M (S A : Type) : Type := S -> World -> result A * S * World.

Definition ret {S A} (a : A) : M S A := fun s w => (inr a, s, w).
Definition raise {S A} (e : exn) : M S A := fun s w => (inl e, s, w).
Definition bind {S A B} (m : M S A) (k : A -> M S B) : M S B :=
  fun s w =>
    match m s w with
    | (inr a, s', w') => k a s' w'
    | (inl e, s', w') => (inl e, s', w')
    end.

Notation "x <- m ;; k" := (bind m (fun x => k))
  (at level 100, m at next level, right associativity).
Notation "m ;; k" := (bind m (fun _ => k))
  (at level 100, right associativity).

(** [self], and assignment to it. *)
Definition get_self {S} : M S S := fun s w => (inr s, s, w).
Definition update {S} (f : S -> S) : M S unit := fun s w => (inr tt, f s, w).

(** [try: m  except Exception as e: h e]. *)
Definition except_Exception {S A} (m : M S A) (h : exn -> M S A) : M S A :=
  fun s w =>
    match m s w with
    | (inl e, s', w') => if is_Exception e then h e s' w' else (inl e, s', w')
    | r => r
    end.

(** [datetime.now()]. *)
Definition datetime_now {S} : M S datetime :=
  fun s w => (inr (clock w (reads w)), s, tick_clock w).

(** [requests.get]/[requests.post], [raise_for_status()] and [json()]. *)
Definition http {S} (q : request) : M S json_body :=
  fun s w =>
    match server w (length (sent w)) q with
    | Reply body => (inr body, s, record_request q w)
    | Failure e => (inl e, s, record_request q w)
    end.

Definition max_sleep : Z := 9223372036.

(** [time.sleep(secs)] for an [int]: a length that does not fit the C time
    type or is negative is refused; a sleep can be cut short by Ctrl-C. *)
Definition time_sleep {S} (secs : Z) : M S unit :=
  fun s w =>
    if (secs <? - max_sleep) || (max_sleep <? secs) then
      (inl (OverflowError "timestamp too large to convert to C PyTime_t"), s, w)
    else if secs <? 0 then
      (inl (ValueError "sleep length must be non-negative"), s, w)
    else if ctrl_c w (length (naps w)) then
      (inl KeyboardInterrupt, s, record_nap secs w)
    else (inr tt, s, record_nap secs w).

(** How an f-string renders an [Optional[str]]. *)
Definition fstr (o : option string) : string :=
  match o with
  | Some s => s
  | None => "None"
  end.

(** ** class PortainerAPI *)

Module PortainerAPI.

Record t : Type := mk {
  url : string;
  api_key : option string;
  username : option string;
  password : option string;
  jwt_token : option string;
  jwt_expiry : option datetime
}.

Definition set_jwt_token (v : option string) (self : t) : t :=
  mk (url self) (api_key self) (username self) (password self) v (jwt_expiry self).
Definition set_jwt_expiry (v : option datetime) (self : t) : t :=
  mk (url self) (api_key self) (username self) (password self) (jwt_token self) v.

Definition __init__ (url0 : string) (api_key0 username0 password0 : option string) : t :=
  mk (rstrip "/" url0) api_key0 username0 password0 None None.

Definition auth_url (self : t) : string := url self ++ "/api/auth".

Definition _authenticate : M t unit :=
  self <- get_self;;
  if negb (truthy (username self)) || negb (truthy (password self)) then
    raise (ValueError "Either API_KEY or USERNAME and PASSWORD must be provided")
  else
    let payload := [("username", username self); ("password", password self)] in
    except_Exception
      (data <- http (POST (auth_url self) [] (Some payload));;
       match data with
       | JToken jwt =>
           update (set_jwt_token (Some jwt));;
           now <- datetime_now;;
           update (set_jwt_expiry (Some (now + timedelta 7 30)))
       | JContainers _ => raise (TypeError "list indices must be integers or slices, not str")
       | JInvalid => raise (RequestException "JSONDecodeError")
       end)
      (fun e => raise e).

(** The test [not self.jwt_token or datetime.now() >= self.jwt_expiry]:
    the clock is read only when a token is cached. *)
Definition token_stale : M t bool :=
  self <- get_self;;
  if negb (truthy (jwt_token self)) then ret true
  else
    now <- datetime_now;;
    match jwt_expiry self with
    | Some expiry => ret (expiry <=? now)
    | None => raise (TypeError "'>=' not supported between 'datetime' and 'NoneType'")
    end.

Definition _get_headers : M t headers :=
  self <- get_self;;
  if truthy (api_key self) then ret [("X-API-Key", fstr (api_key self))]
  else
    stale <- token_stale;;
    (if stale : bool then _authenticate else ret tt);;
    self <- get_self;;
    ret [("Authorization", "Bearer " ++ fstr (jwt_token self))].

Definition container_matches (container_name : string) (c : container) : bool :=
  let names := default [] (Names c) in
  str_in ("/" ++ container_name) names || str_in container_name names
  || startswith (Id c) container_name.

(** The [for] loop of [get_container_id]: the [Id] of the first container
    that matches. *)
Fixpoint find_container (containers : list container) (container_name : string)
  : option string :=
  match containers with
  | [] => None
  | c :: rest =>
      let names := default [] (Names c) in
      if str_in ("/" ++ container_name) names || str_in container_name names then
        Some (Id c)
      else if startswith (Id c) container_name then Some (Id c)
      else find_container rest container_name
  end.

Definition list_url (self : t) (endpoint_id : string) : string :=
  url self ++ "/api/endpoints/" ++ endpoint_id ++ "/docker/containers/json?all=1".

Definition not_found (container_name : string) : exn :=
  ValueError ("Container '" ++ container_name ++ "' not found").

Definition get_container_id (endpoint_id container_name : string) : M t string :=
  self <- get_self;;
  hdrs <- _get_headers;;
  except_Exception
    (data <- http (GET (list_url self endpoint_id) hdrs);;
     match data with
     | JContainers containers =>
         match find_container containers container_name with
         | Some id => ret id
         | None => raise (not_found container_name)
         end
     | JToken _ => raise (AttributeError "'str' object has no attribute 'get'")
     | JInvalid => raise (RequestException "JSONDecodeError")
     end)
    (fun e => raise e).

Definition restart_url (self : t) (endpoint_id : string) (container_id : option string)
  : string :=
  url self ++ "/api/endpoints/" ++ endpoint_id ++ "/docker/containers/"
  ++ fstr container_id ++ "/restart".

Definition restart_container (endpoint_id : string) (container_id : option string)
  : M t bool :=
  self <- get_self;;
  hdrs <- _get_headers;;
  except_Exception
    (http (POST (restart_url self endpoint_id container_id) hdrs None);;
     ret true)
    (fun e => raise e).

End PortainerAPI.

(** ** class ContainerRestarter *)

(** [os.getenv(name)] and [os.getenv(name, default)] on the process
    environment. *)
Definition getenv (environ : gmap string string) (name : string) : option string :=
  environ !! name.
Definition getenv_or (environ : gmap string string) (name fallback : string) : string :=
  default fallback (environ !! name).

Module ContainerRestarter.

(** The fields that [__init__] reads from the environment. *)
Record config : Type := mk_config {
  portainer_url : option string;
  api_key : option string;
  username : option string;
  password : option string;
  endpoint_id : string;
  container_name : option string;
  restart_time : string;
  check_interval : Z
}.

Record t : Type := mk {
  cfg : config;
  api : PortainerAPI.t;
  container_id : option string;
  last_restart_date : option Z
}.

Definition set_api (v : PortainerAPI.t) (self : t) : t :=
  mk (cfg self) v (container_id self) (last_restart_date self).
Definition set_container_id (v : option string) (self : t) : t :=
  mk (cfg self) (api self) v (last_restart_date self).
Definition set_last_restart_date (v : option Z) (self : t) : t :=
  mk (cfg self) (api self) (container_id self) v.

(** A call [self.api.method(...)]. *)
Definition on_api {A} (m : M PortainerAPI.t A) : M t A :=
  fun self w =>
    let '(r, a, w') := m (api self) w in (r, set_api a self, w').

(** The assignments at the top of [__init__]; [int()] may raise. *)
Definition read_config (environ : gmap string string) : result config :=
  match py_int (getenv_or environ "CHECK_INTERVAL" "60") with
  | Some n =>
      inr (mk_config (getenv environ "PORTAINER_URL")
                     (getenv environ "PORTAINER_API_KEY")
                     (getenv environ "PORTAINER_USERNAME")
                     (getenv environ "PORTAINER_PASSWORD")
                     (getenv_or environ "ENDPOINT_ID" "1")
                     (getenv environ "CONTAINER_NAME")
                     (getenv_or environ "RESTART_TIME" "03:00")
                     n)
  | None => inl (ValueError "invalid literal for int() with base 10")
  end.

Definition _validate_config (c : config) : result unit :=
  if negb (truthy (portainer_url c)) then
    inl (ValueError "PORTAINER_URL environment variable is required")
  else if negb (truthy (api_key c)) && negb (truthy (username c) && truthy (password c)) then
    inl (ValueError "Either PORTAINER_API_KEY or both PORTAINER_USERNAME and PORTAINER_PASSWORD must be provided")
  else if negb (truthy (container_name c)) then
    inl (ValueError "CONTAINER_NAME environment variable is required")
  else
    match strptime_HM (restart_time c) with
    | Some _ => inr tt
    | None => inl (ValueError "RESTART_TIME must be in HH:MM format (24-hour)")
    end.

(** The constructor.  It runs in the monad of the world so that what it
    does to the world can be stated; the object under construction is its
    result. *)
Definition __init__ (environ : gmap string string) : M unit t :=
  match read_config environ with
  | inl e => raise e
  | inr c =>
      match _validate_config c with
      | inl e => raise e
      | inr _ =>
          match portainer_url c with
          | Some u =>
              ret (mk c (PortainerAPI.__init__ u (api_key c) (username c) (password c))
                      None None)
          | None => raise (AttributeError "'NoneType' object has no attribute 'rstrip'")
          end
      end
  end.

Definition _should_restart : M t bool :=
  self <- get_self;;
  now <- datetime_now;;
  match strptime_HM (restart_time (cfg self)) with
  | Some (target_hour, target_minute) =>
      let time_match :=
        (hour_of now =? target_hour) && (minute_of now =? target_minute) in
      let not_restarted_today :=
        negb (bool_decide (last_restart_date self = Some (date_of now))) in
      ret (time_match && not_restarted_today)
  | None => raise (ValueError "time data does not match format '%H:%M'")
  end.

(** [self.container_id = self.api.get_container_id(self.endpoint_id,
    self.container_name)].  The validation at construction leaves no
    scheduler without a container name, so the last case is never run. *)
Definition resolve : M t unit :=
  self <- get_self;;
  match container_name (cfg self) with
  | Some name =>
      id <- on_api (PortainerAPI.get_container_id (endpoint_id (cfg self)) name);;
      update (set_container_id (Some id))
  | None => raise (TypeError "container name is None")
  end.

(** The part of [run] before the loop. *)
Definition startup : M t unit :=
  except_Exception resolve (fun _ => ret tt).

(** [if not self.container_id: ...], the first statement of the loop. *)
Definition ensure_resolved : M t unit :=
  self <- get_self;;
  if negb (truthy (container_id self)) then resolve else ret tt.

(** The branch taken when a restart is due: restart, then record the date. *)
Definition restart_now : M t unit :=
  self <- get_self;;
  on_api (PortainerAPI.restart_container (endpoint_id (cfg self)) (container_id self));;
  now <- datetime_now;;
  update (set_last_restart_date (Some (date_of now))).

(** The other branch: the arguments of the debug message are evaluated. *)
Definition idle : M t unit :=
  self <- get_self;;
  match strptime_HM (restart_time (cfg self)) with
  | Some _ => datetime_now;; ret tt
  | None => raise (ValueError "time data does not match format '%H:%M'")
  end.

(** [if self._should_restart(): ... else: ...], the second statement. *)
Definition act : M t unit :=
  due <- _should_restart;;
  if due : bool then restart_now else idle.

(** The [try] block of the loop. *)
Definition attempt : M t unit := ensure_resolved;; act.

(** One iteration of [while True]. *)
Definition iteration : M t unit :=
  except_Exception attempt (fun _ => update (set_container_id None));;
  self <- get_self;;
  time_sleep (check_interval (cfg self)).

(** The first [n] iterations of the loop. *)
Fixpoint loop (n : nat) : M t unit :=
  match n with
  | O => ret tt
  | S n' => iteration;; loop n'
  end.

(** [run], observed for [n] iterations: [inr tt] says that the loop is
    still running after them, [inl e] that [e] has left [run]. *)
Definition run (n : nat) : M t unit := startup;; loop n.

End ContainerRestarter.

(** ** main *)

Inductive status : Type :=
| Running
| Exited (code : Z).

Definition exit_status (e : exn) : status :=
  match e with
  | KeyboardInterrupt => Exited 0
  | _ => Exited 1
  end.

(** [main], with the loop observed for [n] iterations. *)
Definition main (environ : gmap string string) (n : nat) (w : World) : status * World :=
  match ContainerRestarter.__init__ environ tt w with
  | (inl e, _, w') => (exit_status e, w')
  | (inr restarter, _, w') =>
      match ContainerRestarter.run n restarter w' with
      | (inl e, _, w'') => (exit_status e, w'')
      | (inr _, _, w'') => (Running, w'')
      end
  end.

(** ** Notions used in the statements *)

(** The names of a container, [container.get('Names', [])]. *)
Definition names_of (c : container) : list string := default [] (Names c).

(** The three forms under which a container answers to a name. *)
Definition name_matches (name : string) (c : container) : Prop :=
  ("/" ++ name) ∈ names_of c \/ name ∈ names_of c \/ String.prefix name (Id c) = true.

(** A text made of [n] slashes. *)
Fixpoint slashes (n : nat) : string :=
  match n with
  | O => EmptyString
  | S n' => String "/"%char (slashes n')
  end.

(** The restart call is the only request the client posts without a JSON
    body. *)
Definition is_restart (q : request) : bool :=
  match q with
  | POST _ _ None => true
  | _ => false
  end.

(** How many restart requests the program has sent so far. *)
Definition restarts (w : World) : nat := length (List.filter is_restart (sent w)).

(** The reading that the next [datetime.now()] returns. *)
Definition next_now (w : World) : datetime := clock w (reads w).

(** "Two digits, a colon, two digits, at most 23:59", read strictly. *)
Definition HHMM_24h (text : string) : bool :=
  match list_ascii_of_string text with
  | [a; b; c; d; e] =>
      is_digit a && is_digit b && Ascii.eqb c ":"%char && is_digit d && is_digit e
      && (10 * digit_val a + digit_val b <=? 23)
      && (10 * digit_val d + digit_val e <=? 59)
  | _ => false
  end.

(** "The cached token is absent or the current time has reached its
    expiry." *)
Definition token_stale_at (self : PortainerAPI.t) (now : datetime) : bool :=
  negb (truthy (PortainerAPI.jwt_token self))
  || match PortainerAPI.jwt_expiry self with
     | Some expiry => expiry <=? now
     | None => false
     end.

(** A cached token always comes with its expiry: the two fields are [None]
    at construction and are assigned together. *)
Definition token_has_expiry (self : PortainerAPI.t) : Prop :=
  truthy (PortainerAPI.jwt_token self) = true -> PortainerAPI.jwt_expiry self <> None.

(** A configuration that startup must refuse. *)
Definition missing_or_malformed (environ : gmap string string) : Prop :=
  truthy (getenv environ "PORTAINER_URL") = false
  \/ (truthy (getenv environ "PORTAINER_API_KEY") = false
      /\ (truthy (getenv environ "PORTAINER_USERNAME") = false
          \/ truthy (getenv environ "PORTAINER_PASSWORD") = false))
  \/ truthy (getenv environ "CONTAINER_NAME") = false
  \/ strptime_HM (getenv_or environ "RESTART_TIME" "03:00") = None.

(** The world only moves forward: the oracles stay, the histories grow. *)
Definition evolves (w w' : World) : Prop :=
  clock w' = clock w /\ server w' = server w /\ ctrl_c w' = ctrl_c w
  /\ (reads w <= reads w')%nat /\ (restarts w <= restarts w')%nat.

(** The same, and no restart request is sent. *)
Definition no_restart (w w' : World) : Prop :=
  evolves w w' /\ restarts w' = restarts w.

(** The same, and no request at all is sent. *)
Definition offline (w w' : World) : Prop :=
  evolves w w' /\ sent w' = sent w.

(** [preserves R m]: whatever its outcome, [m] takes a world to one
    related to it by [R]. *)
Definition preserves {S A} (R : World -> World -> Prop) (m : M S A) : Prop :=
  forall s w, R w (m s w).2.

(** [keeps f m]: whatever its outcome, [m] leaves the part [f] of the
    object as it was. *)
Definition keeps {S A X} (f : S -> X) (m : M S A) : Prop :=
  forall s w, f (m s w).1.2 = f s.

(** ** Example data *)

Definition env_key : gmap string string :=
  <["PORTAINER_URL" := "http://portainer:9000/"]>
  (<["PORTAINER_API_KEY" := "ptr_secret"]>
  (<["CONTAINER_NAME" := "web"]> ∅)).

Definition env_password : gmap string string :=
  <["PORTAINER_URL" := "http://portainer:9000"]>
  (<["PORTAINER_USERNAME" := "admin"]>
  (<["PORTAINER_PASSWORD" := "hunter2"]>
  (<["CONTAINER_NAME" := "web"]> ∅))).

Definition env_negative_interval : gmap string string :=
  <["CHECK_INTERVAL" := "-1"]> env_key.

Definition env_short_time : gmap string string :=
  <["RESTART_TIME" := "3:00"]> env_key.

Definition env_no_url : gmap string string :=
  <["PORTAINER_API_KEY" := "ptr_secret"]> (<["CONTAINER_NAME" := "web"]> ∅).

Definition web : container := mk_container (Some ["/web"]) "abc123".
Definition db : container := mk_container (Some ["/db"]) "def456".

(** A server that answers every request. *)
Definition good_server (i : nat) (q : request) : response :=
  match q with
  | GET _ _ => Reply (JContainers [db; web])
  | POST _ _ None => Reply JInvalid
  | POST _ _ (Some _) => Reply (JToken "eyJhbGciOi")
  end.

(** A server on which the second request (the first restart) fails. *)
Definition flaky_server (i : nat) (q : request) : response :=
  match i with
  | 1%nat => Failure (RequestException "500 Server Error")
  | _ => good_server i q
  end.

(** A server that is down. *)
Definition dead_server (i : nat) (q : request) : response :=
  Failure (RequestException "Connection refused").

(** Day 738000 at 03:00:10, and a clock stuck there. *)
Definition three_am : datetime := mk_datetime 738000 3 0 10.

Definition world_of (srv : nat -> request -> response) : World :=
  mk_World (fun _ => three_am) srv (fun _ => false) 0 [] [].

Definition key_client : PortainerAPI.t :=
  PortainerAPI.__init__ "http://portainer:9000/" (Some "ptr_secret") None None.

Definition password_client : PortainerAPI.t :=
  PortainerAPI.__init__ "http://portainer:9000" None (Some "admin") (Some "hunter2").

Definition key_restarter : ContainerRestarter.t :=
  ContainerRestarter.mk
    (ContainerRestarter.mk_config (Some "http://portainer:9000/") (Some "ptr_secret")
       None None "1" (Some "web") "03:00" 60)
    key_client None None.

(** A scheduler set for 23:59 that already knows its container, and a
    clock whose readings are 23:59:50 on day 738000, then 00:00:05 and
    23:59:10 on day 738001, and 23:59:11 from then on. *)
Definition late_restarter : ContainerRestarter.t :=
  ContainerRestarter.mk
    (ContainerRestarter.mk_config (Some "http://portainer:9000/") (Some "ptr_secret")
       None None "1" (Some "web") "23:59" 60)
    key_client (Some "abc123") None.

Definition midnight_clock (i : nat) : datetime :=
  match i with
  | 0%nat => mk_datetime 738000 23 59 50
  | 1%nat => mk_datetime 738001 0 0 5
  | 2%nat => mk_datetime 738001 23 59 10
  | _ => mk_datetime 738001 23 59 11
  end.

Definition midnight_world : World :=
  mk_World midnight_clock good_server (fun _ => false) 0 [] [].

(** ** Notions used in the further properties *)

(** A text that ends with a slash. *)
Definition ends_with_slash (s : string) : Prop := exists t : string, s = t ++ "/".

(** The request by which [_authenticate] asks for a token. *)
Definition auth_request (self : PortainerAPI.t) : request :=
  POST (PortainerAPI.auth_url self) []
    (Some [("username", PortainerAPI.username self);
           ("password", PortainerAPI.password self)]).

(** The error of a client that has nothing to authenticate with. *)
Definition no_credentials : exn :=
  ValueError "Either API_KEY or USERNAME and PASSWORD must be provided".

(** The header of a client that has an API key, and the requests that
    carry it and nothing else: no JSON body, hence no password. *)
Definition key_headers (self : PortainerAPI.t) : headers :=
  [("X-API-Key", fstr (PortainerAPI.api_key self))].

Definition keyed_request (a : PortainerAPI.t) (q : request) : Prop :=
  match q with
  | GET _ hdrs => hdrs = key_headers a
  | POST _ hdrs json => hdrs = key_headers a /\ json = None
  end.

(** The bearer header made of a token. *)
Definition bearer_headers (jwt : string) : headers :=
  [("Authorization", "Bearer " ++ jwt)].

(** A world in which nobody presses Ctrl-C. *)
Definition calm (w : World) : Prop :=
  (forall i q, server w i q <> Failure KeyboardInterrupt)
  /\ (forall i, ctrl_c w i = false).

(** [maintains I E m]: started where [I] holds, [m] ends where [I] holds,
    and an exception that leaves it satisfies [E]. *)
Definition maintains {S A} (I : S -> World -> Prop) (E : exn -> Prop) (m : M S A) : Prop :=
  forall s w, I s w ->
    I (m s w).1.2 (m s w).2 /\ forall e, (m s w).1.1 = inl e -> E e.

(** A length that [time.sleep] accepts. *)
Definition sleepable (secs : Z) : Prop := 0 <= secs <= max_sleep.

(** A server that hands out an empty token. *)
Definition empty_token_server (i : nat) (q : request) : response :=
  Reply (JToken "").

(** Since the history [base], only requests that carry the key of the
    client [a] have been sent. *)
Definition keyed_history (a : PortainerAPI.t) (base : list request) (w : World) : Prop :=
  exists l : list request, sent w = (base ++ l)%list /\ Forall (keyed_request a) l.

Definition keyed_client (a : PortainerAPI.t) (base : list request)
    (a' : PortainerAPI.t) (w : World) : Prop :=
  a' = a /\ keyed_history a base w.

Definition keyed_scheduler (a : PortainerAPI.t) (base : list request)
    (s : ContainerRestarter.t) (w : World) : Prop :=
  ContainerRestarter.api s = a /\ keyed_history a base w.

(** The exceptions that [except Exception] catches, as a property. *)
Definition caught (e : exn) : Prop := is_Exception e = true.

Definition anything (e : exn) : Prop := True.
Definition nothing (e : exn) : Prop := False.

(** A server that never answers with a Ctrl-C, whatever the object that
    talks to it. *)
Definition polite (w : World) : Prop :=
  forall i q, server w i q <> Failure KeyboardInterrupt.

Definition in_polite {S} (s : S) (w : World) : Prop := polite w.

(** Nothing has slept in between. *)
Definition same_naps (w w' : World) : Prop := naps w' = naps w.

Definition env_fractional_interval : gmap string string :=
  <["CHECK_INTERVAL" := "1.5"]> env_key.

(** A world in which Ctrl-C is pressed during the third sleep. *)
Definition interrupted_world : World :=
  mk_World (fun _ => three_am) good_server (fun i => Nat.eqb i 2) 0 [] [].

(** An environment in which RESTART_TIME is set, but to nothing. *)
Definition env_empty_time : gmap string string :=
  <["RESTART_TIME" := ""]> env_key.

(** A request that gives the password away only to the authentication
    URL of the client [a]: if it has a body, it is the authentication
    request of [a]. *)
Definition password_only_to_auth (a : PortainerAPI.t) (q : request) : Prop :=
  match q with
  | POST _ _ (Some _) => q = auth_request a
  | _ => True
  end.

(** The client [a'] has the URL and the credentials of [a]. *)
Definition same_credentials (a a' : PortainerAPI.t) : Prop :=
  PortainerAPI.url a' = PortainerAPI.url a
  /\ PortainerAPI.username a' = PortainerAPI.username a
  /\ PortainerAPI.password a' = PortainerAPI.password a.

Definition discreet_history (a : PortainerAPI.t) (base : list request) (w : World) : Prop :=
  exists l : list request,
    sent w = (base ++ l)%list /\ Forall (password_only_to_auth a) l.

Definition discreet_client (a : PortainerAPI.t) (base : list request)
    (a' : PortainerAPI.t) (w : World) : Prop :=
  same_credentials a a' /\ discreet_history a base w.

Definition discreet_scheduler (a : PortainerAPI.t) (base : list request)
    (s : ContainerRestarter.t) (w : World) : Prop :=
  same_credentials a (ContainerRestarter.api s) /\ discreet_history a base w.

(** * Properties *)

(** ** Text *)

Lemma rstrip_slashes (n : nat) : rstrip "/" (slashes n) = "".
Proof.
  induction n as [|n IH]; simpl; [reflexivity|].
  rewrite IH. reflexivity.
Qed.

Lemma rstrip_app_slashes (u : string) (n : nat) :
  rstrip "/" (u ++ slashes n) = rstrip "/" u.
Proof.
  induction u as [|a u IH]; simpl.
  - apply rstrip_slashes.
  - rewrite IH. reflexivity.
Qed.

Lemma str_in_elem_of (x : string) (l : list string) : str_in x l = true <-> x ∈ l.
Proof.
  unfold str_in. rewrite existsb_exists, list_elem_of_In. split.
  - intros (y & Hy & E). apply String.eqb_eq in E. now subst.
  - intros H. exists x. split; [assumption | apply String.eqb_refl].
Qed.

Lemma container_matches_spec (name : string) (c : container) :
  PortainerAPI.container_matches name c = true <-> name_matches name c.
Proof.
  unfold PortainerAPI.container_matches, name_matches, names_of, startswith.
  rewrite !orb_true_iff, !str_in_elem_of. tauto.
Qed.

Lemma find_container_cons (c : container) (cs : list container) (name : string) :
  PortainerAPI.find_container (c :: cs) name =
  if PortainerAPI.container_matches name c then Some (Id c)
  else PortainerAPI.find_container cs name.
Proof.
  simpl. unfold PortainerAPI.container_matches.
  destruct (str_in ("/" ++ name) (default [] (Names c)) || str_in name (default [] (Names c)));
    simpl; [reflexivity|].
  destruct (startswith (Id c) name); reflexivity.
Qed.

(** The loop of [get_container_id] returns the [Id] of the first container
    that matches, if there is one. *)
Lemma find_container_Some (cs : list container) (name id : string) :
  PortainerAPI.find_container cs name = Some id ->
  exists (before : list container) (c : container) (after : list container),
    cs = (before ++ c :: after)%list /\ Id c = id /\ name_matches name c
    /\ forall c', c' ∈ before -> ~ name_matches name c'.
Proof.
  induction cs as [|c cs IH]; [discriminate|].
  rewrite find_container_cons.
  destruct (PortainerAPI.container_matches name c) eqn:E; intros H.
  - exists [], c, cs. repeat split.
    + congruence.
    + now apply container_matches_spec.
    + intros c' Hc'. inversion Hc'.
  - destruct (IH H) as (before & c0 & after & -> & Hid & Hm & Hfirst).
    exists (c :: before), c0, after. repeat split; try assumption.
    intros c' Hc'. apply elem_of_cons in Hc' as [->|Hc']; [|now apply Hfirst].
    intros Hm'. apply container_matches_spec in Hm'. congruence.
Qed.

Lemma find_container_None (cs : list container) (name : string) :
  PortainerAPI.find_container cs name = None <->
  forall c, c ∈ cs -> ~ name_matches name c.
Proof.
  induction cs as [|c cs IH].
  - split; [|reflexivity]. intros _ c Hc. inversion Hc.
  - rewrite find_container_cons.
    destruct (PortainerAPI.container_matches name c) eqn:E.
    + split; [discriminate|]. intros H. exfalso.
      apply (H c); [left|]. now apply container_matches_spec.
    + rewrite IH. split.
      * intros H c' Hc'. apply elem_of_cons in Hc' as [->|Hc']; [|now apply H].
        intros Hm. apply container_matches_spec in Hm. congruence.
      * intros H c' Hc'. apply H. now right.
Qed.

(** ** C10: trailing slashes of the base URL *)

(** C10: a client built from a base URL and one built from the same URL
    followed by any number of slashes use the same URLs for the
    authentication, the container list and the restart requests; they are
    in fact the same client, since the constructor strips the slashes. *)
Theorem trailing_slashes_same_urls
    (base : string) (n : nat) (key user pass : option string)
    (endpoint : string) (id : option string) :
  let a := PortainerAPI.__init__ base key user pass in
  let b := PortainerAPI.__init__ (base ++ slashes n) key user pass in
  PortainerAPI.auth_url b = PortainerAPI.auth_url a
  /\ PortainerAPI.list_url b endpoint = PortainerAPI.list_url a endpoint
  /\ PortainerAPI.restart_url b endpoint id = PortainerAPI.restart_url a endpoint id
  /\ b = a.
Proof.
  assert (E : PortainerAPI.__init__ (base ++ slashes n) key user pass
              = PortainerAPI.__init__ base key user pass).
  { unfold PortainerAPI.__init__. now rewrite rstrip_app_slashes. }
  simpl. rewrite E. repeat split.
Qed.

(** ** What a method may do to the world *)

Section Preservation.
Context (R : World -> World -> Prop) `{!Reflexive R} `{!Transitive R}.

Lemma preserves_ret {S A} (a : A) : preserves R (@ret S A a).
Proof. intros s w. simpl. reflexivity. Qed.

Lemma preserves_raise {S A} (e : exn) : preserves R (@raise S A e).
Proof. intros s w. simpl. reflexivity. Qed.

Lemma preserves_get_self {S} : preserves R (@get_self S).
Proof. intros s w. simpl. reflexivity. Qed.

Lemma preserves_update {S} (f : S -> S) : preserves R (update f).
Proof. intros s w. simpl. reflexivity. Qed.

Lemma preserves_bind {S A B} (m : M S A) (k : A -> M S B) :
  preserves R m -> (forall a, preserves R (k a)) -> preserves R (bind m k).
Proof.
  intros Hm Hk s w. unfold bind. specialize (Hm s w).
  destruct (m s w) as [[[e|a] s'] w']; simpl in *; [assumption|].
  etransitivity; [exact Hm | apply Hk].
Qed.

Lemma preserves_except {S A} (m : M S A) (h : exn -> M S A) :
  preserves R m -> (forall e, preserves R (h e)) -> preserves R (except_Exception m h).
Proof.
  intros Hm Hh s w. unfold except_Exception. specialize (Hm s w).
  destruct (m s w) as [[[e|a] s'] w']; simpl in *; [|assumption].
  destruct (is_Exception e); simpl; [|assumption].
  etransitivity; [exact Hm | apply Hh].
Qed.

Lemma preserves_on_api {A} (m : M PortainerAPI.t A) :
  preserves R m -> preserves R (ContainerRestarter.on_api m).
Proof.
  intros Hm s w. unfold ContainerRestarter.on_api. specialize (Hm (ContainerRestarter.api s) w).
  destruct (m (ContainerRestarter.api s) w) as [[r a] w']. exact Hm.
Qed.

Lemma preserves_now {S} :
  (forall w, R w (tick_clock w)) -> preserves R (@datetime_now S).
Proof. intros H s w. apply H. Qed.

Lemma preserves_http {S} (q : request) :
  (forall w, R w (record_request q w)) -> preserves R (@http S q).
Proof. intros H s w. unfold http. destruct (server w _ q); apply H. Qed.

Lemma preserves_sleep {S} (secs : Z) :
  (forall w, R w (record_nap secs w)) -> preserves R (@time_sleep S secs).
Proof.
  intros H s w. unfold time_sleep.
  repeat match goal with |- context [if ?b then _ else _] => destruct b end;
    simpl; first [reflexivity | apply H].
Qed.
End Preservation.

(** Decompose a method into its statements. *)
Ltac preserves_steps :=
  repeat first
    [ apply preserves_ret | apply preserves_raise | apply preserves_get_self
    | apply preserves_update | apply preserves_bind | apply preserves_except
    | apply preserves_on_api
    | match goal with
      | |- forall _, _ => intro
      | |- preserves _ (if ?b then _ else _) => destruct b
      | |- preserves _ (match ?x with _ => _ end) => destruct x
      end ].

#[local] Instance evolves_refl : Reflexive evolves.
Proof. intros w. unfold evolves. repeat split; lia. Qed.

#[local] Instance evolves_trans : Transitive evolves.
Proof.
  intros a b c (?&?&?&?&?) (?&?&?&?&?). unfold evolves.
  repeat split; try congruence; lia.
Qed.

#[local] Instance no_restart_refl : Reflexive no_restart.
Proof. intros w. split; reflexivity. Qed.

#[local] Instance no_restart_trans : Transitive no_restart.
Proof.
  intros a b c [H1 E1] [H2 E2]. split; [etransitivity; eassumption | congruence].
Qed.

#[local] Instance offline_refl : Reflexive offline.
Proof. intros w. split; reflexivity. Qed.

#[local] Instance offline_trans : Transitive offline.
Proof.
  intros a b c [H1 E1] [H2 E2]. split; [etransitivity; eassumption | congruence].
Qed.

Lemma restarts_record_request (q : request) (w : World) :
  restarts (record_request q w) = (restarts w + (if is_restart q then 1 else 0))%nat.
Proof.
  unfold restarts, record_request. simpl.
  rewrite List.filter_app, length_app. simpl. destruct (is_restart q); reflexivity.
Qed.

Lemma evolves_tick (w : World) : evolves w (tick_clock w).
Proof. unfold evolves, restarts. simpl. repeat split; lia. Qed.

Lemma evolves_nap (secs : Z) (w : World) : evolves w (record_nap secs w).
Proof. unfold evolves, restarts. simpl. repeat split; lia. Qed.

Lemma evolves_request (q : request) (w : World) : evolves w (record_request q w).
Proof.
  unfold evolves. rewrite restarts_record_request. simpl. repeat split; lia.
Qed.

Lemma no_restart_tick (w : World) : no_restart w (tick_clock w).
Proof. split; [apply evolves_tick | reflexivity]. Qed.

Lemma no_restart_nap (secs : Z) (w : World) : no_restart w (record_nap secs w).
Proof. split; [apply evolves_nap | reflexivity]. Qed.

Lemma no_restart_request (q : request) (w : World) :
  is_restart q = false -> no_restart w (record_request q w).
Proof.
  intros H. split; [apply evolves_request|].
  rewrite restarts_record_request, H. lia.
Qed.

Lemma offline_tick (w : World) : offline w (tick_clock w).
Proof. split; [apply evolves_tick | reflexivity]. Qed.

Lemma no_restart_evolves (w w' : World) : no_restart w w' -> evolves w w'.
Proof. now intros [H _]. Qed.

Lemma offline_no_restart (w w' : World) : offline w w' -> no_restart w w'.
Proof. intros [H E]. split; [assumption|]. unfold restarts. now rewrite E. Qed.

Lemma preserves_weaken {S A} (R R' : World -> World -> Prop) (m : M S A) :
  (forall w w', R w w' -> R' w w') -> preserves R m -> preserves R' m.
Proof. intros H Hm s w. apply H, Hm. Qed.

Create HintDb world.
#[local] Hint Resolve evolves_tick evolves_nap evolves_request no_restart_tick
  no_restart_nap no_restart_request offline_tick : world.

(** Close the goals that [preserves_steps] leaves: the primitive
    operations and the calls of methods already dealt with. *)
Ltac preserves_crush :=
  preserves_steps;
  first
    [ solve [typeclasses eauto]
    | solve [auto with world]
    | apply preserves_now; intros; solve [auto with world]
    | apply preserves_http; intros; solve [auto with world]
    | apply preserves_sleep;
      first [ solve [typeclasses eauto] | intros; solve [auto with world] ] ].

Lemma authenticate_no_restart : preserves no_restart PortainerAPI._authenticate.
Proof. unfold PortainerAPI._authenticate. preserves_crush. Qed.
#[local] Hint Resolve authenticate_no_restart : world.

Lemma token_stale_offline : preserves offline PortainerAPI.token_stale.
Proof. unfold PortainerAPI.token_stale. preserves_crush. Qed.

Lemma token_stale_no_restart : preserves no_restart PortainerAPI.token_stale.
Proof. eapply preserves_weaken; [apply offline_no_restart | apply token_stale_offline]. Qed.
#[local] Hint Resolve token_stale_no_restart : world.

Lemma get_headers_no_restart : preserves no_restart PortainerAPI._get_headers.
Proof. unfold PortainerAPI._get_headers. preserves_crush. Qed.
#[local] Hint Resolve get_headers_no_restart : world.

Lemma get_container_id_no_restart (endpoint name : string) :
  preserves no_restart (PortainerAPI.get_container_id endpoint name).
Proof. unfold PortainerAPI.get_container_id. preserves_crush. Qed.
#[local] Hint Resolve get_container_id_no_restart : world.

Lemma get_headers_evolves : preserves evolves PortainerAPI._get_headers.
Proof. eapply preserves_weaken; [apply no_restart_evolves | apply get_headers_no_restart]. Qed.
#[local] Hint Resolve get_headers_evolves : world.

Lemma restart_container_evolves (endpoint : string) (id : option string) :
  preserves evolves (PortainerAPI.restart_container endpoint id).
Proof. unfold PortainerAPI.restart_container. preserves_crush. Qed.
#[local] Hint Resolve restart_container_evolves : world.

Lemma should_restart_offline : preserves offline ContainerRestarter._should_restart.
Proof. unfold ContainerRestarter._should_restart. preserves_crush. Qed.

Lemma should_restart_evolves : preserves evolves ContainerRestarter._should_restart.
Proof.
  eapply preserves_weaken; [|apply should_restart_offline]. now intros w w' [H _].
Qed.
#[local] Hint Resolve should_restart_evolves : world.

Lemma resolve_no_restart : preserves no_restart ContainerRestarter.resolve.
Proof. unfold ContainerRestarter.resolve. preserves_crush. Qed.
#[local] Hint Resolve resolve_no_restart : world.

Lemma ensure_resolved_no_restart : preserves no_restart ContainerRestarter.ensure_resolved.
Proof. unfold ContainerRestarter.ensure_resolved. preserves_crush. Qed.

Lemma ensure_resolved_evolves : preserves evolves ContainerRestarter.ensure_resolved.
Proof.
  eapply preserves_weaken; [apply no_restart_evolves | apply ensure_resolved_no_restart].
Qed.
#[local] Hint Resolve ensure_resolved_evolves : world.

Lemma act_evolves : preserves evolves ContainerRestarter.act.
Proof.
  unfold ContainerRestarter.act, ContainerRestarter.restart_now, ContainerRestarter.idle.
  preserves_crush.
Qed.
#[local] Hint Resolve act_evolves : world.

Lemma attempt_evolves : preserves evolves ContainerRestarter.attempt.
Proof. unfold ContainerRestarter.attempt. preserves_crush. Qed.
#[local] Hint Resolve attempt_evolves : world.

Lemma iteration_evolves : preserves evolves ContainerRestarter.iteration.
Proof. unfold ContainerRestarter.iteration. preserves_crush. Qed.
#[local] Hint Resolve iteration_evolves : world.

Lemma loop_evolves (n : nat) : preserves evolves (ContainerRestarter.loop n).
Proof. induction n; simpl; preserves_crush. Qed.

(** ** C2: the scheduling decision *)

(** What [_should_restart] computes, when the restart time is well formed. *)
Lemma should_restart_eval (self : ContainerRestarter.t) (w : World) (th tm : Z) :
  strptime_HM (ContainerRestarter.restart_time (ContainerRestarter.cfg self)) = Some (th, tm) ->
  ContainerRestarter._should_restart self w =
  (inr ((hour_of (next_now w) =? th) && (minute_of (next_now w) =? tm)
        && negb (bool_decide (ContainerRestarter.last_restart_date self
                              = Some (date_of (next_now w))))),
   self, tick_clock w).
Proof.
  intros H. unfold ContainerRestarter._should_restart, bind, get_self, datetime_now, ret.
  rewrite H. reflexivity.
Qed.

(** C2: [_should_restart] returns, and it returns true exactly when the
    hour and the minute of the current time are those of the target time
    and the date of the last restart is not the current date. *)
Theorem should_restart_iff (self : ContainerRestarter.t) (w : World) (th tm : Z) :
  strptime_HM (ContainerRestarter.restart_time (ContainerRestarter.cfg self)) = Some (th, tm) ->
  exists b : bool,
    ContainerRestarter._should_restart self w = (inr b, self, tick_clock w)
    /\ (b = true <->
        hour_of (next_now w) = th /\ minute_of (next_now w) = tm
        /\ ContainerRestarter.last_restart_date self <> Some (date_of (next_now w))).
Proof.
  intros H. eexists. split; [apply (should_restart_eval _ _ _ _ H)|].
  rewrite !andb_true_iff, !Z.eqb_eq, negb_true_iff, bool_decide_eq_false. tauto.
Qed.

Lemma should_restart_iff_witness :
  strptime_HM (ContainerRestarter.restart_time (ContainerRestarter.cfg key_restarter))
  = Some (3, 0)
  /\ exists b : bool,
      ContainerRestarter._should_restart key_restarter (world_of good_server)
      = (inr b, key_restarter, tick_clock (world_of good_server))
      /\ (b = true <->
          hour_of three_am = 3 /\ minute_of three_am = 0
          /\ ContainerRestarter.last_restart_date key_restarter <> Some (date_of three_am)).
Proof.
  split; [reflexivity|].
  apply (should_restart_iff key_restarter (world_of good_server) 3 0). reflexivity.
Defined.

(** ** C3: resolving a name *)



(** ** C5: the choice of the authentication header *)

(** The state of the client is well formed at construction and after every
    method. *)
Lemma init_token_has_expiry (u : string) (key user pass : option string) :
  token_has_expiry (PortainerAPI.__init__ u key user pass).
Proof. intros H. discriminate H. Qed.

Lemma authenticate_token_has_expiry (self : PortainerAPI.t) (w : World) :
  token_has_expiry self -> token_has_expiry (PortainerAPI._authenticate self w).1.2.
Proof.
  intros WF. unfold PortainerAPI._authenticate, bind, get_self.
  destruct (negb _ || negb _); simpl; [assumption|].
  unfold except_Exception, http.
  destruct (server w _ _) as [[jwt|cs|]|e]; simpl;
    try (destruct (is_Exception e)); simpl; try assumption.
  intros _. discriminate.
Qed.

(** With a user name and a password, [_authenticate] sends exactly one
    request, to the authentication URL; a token it receives is cached with
    an expiry of seven and a half hours from now. *)
Lemma authenticate_request (self : PortainerAPI.t) (w : World) :
  truthy (PortainerAPI.username self) = true ->
  truthy (PortainerAPI.password self) = true ->
  let q := POST (PortainerAPI.auth_url self) []
             (Some [("username", PortainerAPI.username self);
                    ("password", PortainerAPI.password self)]) in
  let '(r, self', w') := PortainerAPI._authenticate self w in
  sent w' = (sent w ++ [q])%list
  /\ match server w (length (sent w)) q with
     | Reply (JToken jwt) =>
         r = inr tt /\ PortainerAPI.jwt_token self' = Some jwt
         /\ PortainerAPI.jwt_expiry self' = Some (next_now w + timedelta 7 30)
     | Reply _ => (exists e, r = inl e) /\ self' = self
     | Failure e => r = inl e /\ self' = self
     end.
Proof.
  intros Hu Hp. unfold PortainerAPI._authenticate, bind, get_self.
  rewrite Hu, Hp. simpl. unfold except_Exception, http.
  destruct (server w _ _) as [[jwt|cs|]|e]; simpl; eauto.
  destruct (is_Exception e); simpl; eauto.
Qed.

(** C5, as amended: with an API key, [_get_headers] returns the X-API-Key
    header and touches neither the client nor the world; without one, it
    calls [_authenticate] exactly when the cached token is absent or the
    current time has reached its expiry, an error of that call propagates,
    and otherwise the bearer header of the cached token is returned; while
    the token is unexpired nothing is sent and the client is unchanged. *)
Theorem get_headers_selection (self : PortainerAPI.t) (w : World) :
  token_has_expiry self ->
  let '(r, self', w') := PortainerAPI._get_headers self w in
  if truthy (PortainerAPI.api_key self) then
    r = inr [("X-API-Key", fstr (PortainerAPI.api_key self))] /\ self' = self /\ w' = w
  else if token_stale_at self (next_now w) then
    let w0 := if truthy (PortainerAPI.jwt_token self) then tick_clock w else w in
    let '(ra, sa, wa) := PortainerAPI._authenticate self w0 in
    self' = sa /\ w' = wa
    /\ match ra with
       | inl e => r = inl e
       | inr _ => r = inr [("Authorization", "Bearer " ++ fstr (PortainerAPI.jwt_token sa))]
       end
  else
    r = inr [("Authorization", "Bearer " ++ fstr (PortainerAPI.jwt_token self))]
    /\ self' = self /\ w' = tick_clock w.
Proof.
  intros WF. unfold PortainerAPI._get_headers, PortainerAPI.token_stale, bind, get_self.
  destruct (truthy (PortainerAPI.api_key self)); simpl; [repeat split|].
  unfold token_stale_at, token_has_expiry in *.
  destruct (truthy (PortainerAPI.jwt_token self)) eqn:T; simpl.
  - destruct (PortainerAPI.jwt_expiry self) as [expiry|] eqn:X; [|now destruct WF].
    unfold next_now. destruct (expiry <=? clock w (reads w)); simpl; [|repeat split].
    destruct (PortainerAPI._authenticate self (tick_clock w)) as [[[e|[]] sa] wa];
      repeat split.
  - destruct (PortainerAPI._authenticate self w) as [[[e|[]] sa] wa]; repeat split.
Qed.

Lemma get_headers_selection_witness :
  token_has_expiry password_client
  /\ (PortainerAPI._get_headers password_client (world_of good_server)).1.1
     = inr [("Authorization", "Bearer eyJhbGciOi")].
Proof.
  assert (WF : token_has_expiry password_client) by (intros H; discriminate H).
  split; [exact WF|].
  pose proof (get_headers_selection password_client (world_of good_server) WF) as H.
  destruct (PortainerAPI._get_headers password_client (world_of good_server))
    as [[r self'] w'].
  simpl in H. destruct H as (_ & _ & H). exact H.
Defined.

(** C5 as stated fails when the authentication fails: no key is configured
    and no token is cached, so the client authenticates, but the server is
    down and no header comes back. *)
Lemma get_headers_without_header :
  truthy (PortainerAPI.api_key password_client) = false
  /\ token_stale_at password_client (next_now (world_of dead_server)) = true
  /\ (PortainerAPI._get_headers password_client (world_of dead_server)).1.1
     = inl (RequestException "Connection refused")
  /\ forall hdrs : headers,
      (PortainerAPI._get_headers password_client (world_of dead_server)).1.1 <> inr hdrs.
Proof. repeat split. intros hdrs H. discriminate H. Qed.

(** ** What a method may do to its object *)

Section Keeping.
Context {S X : Type} (f : S -> X).

Lemma keeps_ret {A} (a : A) : keeps f (@ret S A a).
Proof. intros s w. reflexivity. Qed.

Lemma keeps_raise {A} (e : exn) : keeps f (@raise S A e).
Proof. intros s w. reflexivity. Qed.

Lemma keeps_get_self : keeps f (@get_self S).
Proof. intros s w. reflexivity. Qed.

Lemma keeps_update (g : S -> S) : (forall s, f (g s) = f s) -> keeps f (update g).
Proof. intros H s w. apply H. Qed.

Lemma keeps_now : keeps f (@datetime_now S).
Proof. intros s w. reflexivity. Qed.

Lemma keeps_http (q : request) : keeps f (@http S q).
Proof. intros s w. unfold http. destruct (server w _ q); reflexivity. Qed.

Lemma keeps_sleep (secs : Z) : keeps f (@time_sleep S secs).
Proof.
  intros s w. unfold time_sleep.
  repeat match goal with |- context [if ?b then _ else _] => destruct b end; reflexivity.
Qed.

Lemma keeps_bind {A B} (m : M S A) (k : A -> M S B) :
  keeps f m -> (forall a, keeps f (k a)) -> keeps f (bind m k).
Proof.
  intros Hm Hk s w. unfold bind. specialize (Hm s w).
  destruct (m s w) as [[[e|a] s'] w']; simpl in *; [assumption|].
  rewrite Hk. assumption.
Qed.

Lemma keeps_except {A} (m : M S A) (h : exn -> M S A) :
  keeps f m -> (forall e, keeps f (h e)) -> keeps f (except_Exception m h).
Proof.
  intros Hm Hh s w. unfold except_Exception. specialize (Hm s w).
  destruct (m s w) as [[[e|a] s'] w']; simpl in *; [|assumption].
  destruct (is_Exception e); simpl; [|assumption].
  rewrite Hh. assumption.
Qed.
End Keeping.

Lemma keeps_on_api {A X} (f : ContainerRestarter.t -> X) (m : M PortainerAPI.t A) :
  (forall a s, f (ContainerRestarter.set_api a s) = f s) ->
  keeps f (ContainerRestarter.on_api m).
Proof.
  intros H s w. unfold ContainerRestarter.on_api.
  destruct (m (ContainerRestarter.api s) w) as [[r a] w']. apply H.
Qed.

Ltac keeps_crush :=
  repeat first
    [ apply keeps_ret | apply keeps_raise | apply keeps_get_self
    | apply keeps_now | apply keeps_http | apply keeps_sleep
    | apply keeps_update; reflexivity
    | apply keeps_on_api; reflexivity
    | apply keeps_bind | apply keeps_except
    | match goal with
      | |- forall _, _ => intro
      | |- keeps _ (if ?b then _ else _) => destruct b
      | |- keeps _ (match ?x with _ => _ end) => destruct x
      end ].

Lemma authenticate_keeps_url : keeps PortainerAPI.url PortainerAPI._authenticate.
Proof. unfold PortainerAPI._authenticate. keeps_crush. Qed.

Lemma should_restart_keeps_self : keeps id ContainerRestarter._should_restart.
Proof. unfold ContainerRestarter._should_restart. keeps_crush. Qed.

Lemma restart_now_keeps_container_id :
  keeps ContainerRestarter.container_id ContainerRestarter.restart_now.
Proof. unfold ContainerRestarter.restart_now. keeps_crush. Qed.

Lemma idle_keeps_self : keeps id ContainerRestarter.idle.
Proof. unfold ContainerRestarter.idle. keeps_crush. Qed.

Lemma act_keeps_container_id : keeps ContainerRestarter.container_id ContainerRestarter.act.
Proof.
  unfold ContainerRestarter.act, ContainerRestarter.restart_now, ContainerRestarter.idle,
    ContainerRestarter._should_restart.
  keeps_crush.
Qed.

Lemma act_keeps_cfg : keeps ContainerRestarter.cfg ContainerRestarter.act.
Proof.
  unfold ContainerRestarter.act, ContainerRestarter.restart_now, ContainerRestarter.idle,
    ContainerRestarter._should_restart.
  keeps_crush.
Qed.

Lemma resolve_keeps_cfg : keeps ContainerRestarter.cfg ContainerRestarter.resolve.
Proof. unfold ContainerRestarter.resolve. keeps_crush. Qed.

Lemma resolve_keeps_date : keeps ContainerRestarter.last_restart_date ContainerRestarter.resolve.
Proof. unfold ContainerRestarter.resolve. keeps_crush. Qed.

Lemma ensure_resolved_keeps_cfg :
  keeps ContainerRestarter.cfg ContainerRestarter.ensure_resolved.
Proof. unfold ContainerRestarter.ensure_resolved, ContainerRestarter.resolve. keeps_crush. Qed.

Lemma ensure_resolved_keeps_date :
  keeps ContainerRestarter.last_restart_date ContainerRestarter.ensure_resolved.
Proof. unfold ContainerRestarter.ensure_resolved, ContainerRestarter.resolve. keeps_crush. Qed.

Lemma iteration_keeps_cfg : keeps ContainerRestarter.cfg ContainerRestarter.iteration.
Proof.
  unfold ContainerRestarter.iteration, ContainerRestarter.attempt,
    ContainerRestarter.ensure_resolved, ContainerRestarter.resolve,
    ContainerRestarter.act, ContainerRestarter.restart_now, ContainerRestarter.idle,
    ContainerRestarter._should_restart.
  keeps_crush.
Qed.

(** A successful [resolve] leaves an identifier in the cache. *)
Lemma resolve_sets_container_id (self s1 : ContainerRestarter.t) (w w1 : World) :
  ContainerRestarter.resolve self w = (inr tt, s1, w1) ->
  is_Some (ContainerRestarter.container_id s1).
Proof.
  unfold ContainerRestarter.resolve, bind, get_self, update, raise.
  destruct (ContainerRestarter.container_name _); [|discriminate].
  destruct (ContainerRestarter.on_api _ self w) as [[[e|id] s'] w']; [discriminate|].
  intros [= <- _]. simpl. eauto.
Qed.

Lemma ensure_resolved_sets_container_id (self s1 : ContainerRestarter.t) (w w1 : World) :
  ContainerRestarter.ensure_resolved self w = (inr tt, s1, w1) ->
  is_Some (ContainerRestarter.container_id s1)
  /\ (truthy (ContainerRestarter.container_id self) = true -> s1 = self /\ w1 = w).
Proof.
  unfold ContainerRestarter.ensure_resolved, bind, get_self.
  destruct (truthy (ContainerRestarter.container_id self)) eqn:T; simpl.
  - intros [= <- <-]. split; [|auto].
    destruct (ContainerRestarter.container_id self); [eauto | discriminate].
  - intros H. split; [|discriminate]. eapply resolve_sets_container_id, H.
Qed.

(** [time.sleep] does not touch the object. *)
Lemma time_sleep_state {S} (secs : Z) (s : S) (w : World) : (time_sleep secs s w).1.2 = s.
Proof. apply (keeps_sleep id). Qed.

(** ** C6: errors and the cached identifier *)

(** One iteration, in terms of the outcome of its [try] block. *)
Lemma iteration_unfold (self : ContainerRestarter.t) (w : World) :
  ContainerRestarter.iteration self w =
  let '(r, s1, w1) := ContainerRestarter.attempt self w in
  let secs := ContainerRestarter.check_interval (ContainerRestarter.cfg s1) in
  match r with
  | inr _ => time_sleep secs s1 w1
  | inl e =>
      if is_Exception e
      then time_sleep secs (ContainerRestarter.set_container_id None s1) w1
      else (inl e, s1, w1)
  end.
Proof.
  unfold ContainerRestarter.iteration, bind, except_Exception, get_self, update.
  destruct (ContainerRestarter.attempt self w) as [[[e|[]] s1] w1]; simpl; [|reflexivity].
  destruct (is_Exception e); reflexivity.
Qed.

Lemma attempt_unfold (self : ContainerRestarter.t) (w : World) :
  ContainerRestarter.attempt self w =
  match ContainerRestarter.ensure_resolved self w with
  | (inr _, s1, w1) => ContainerRestarter.act s1 w1
  | (inl e, s1, w1) => (inl e, s1, w1)
  end.
Proof. reflexivity. Qed.

(** A successful [try] block ends with an identifier in the cache, the one
    it started with if there was one. *)
Lemma attempt_sets_container_id (self s1 : ContainerRestarter.t) (w w1 : World) :
  ContainerRestarter.attempt self w = (inr tt, s1, w1) ->
  is_Some (ContainerRestarter.container_id s1)
  /\ (ContainerRestarter.container_id s1 = ContainerRestarter.container_id self
      \/ truthy (ContainerRestarter.container_id self) = false).
Proof.
  rewrite attempt_unfold.
  destruct (ContainerRestarter.ensure_resolved self w) as [[[e|[]] s0] w0] eqn:E;
    [discriminate|].
  intros H. pose proof (act_keeps_container_id s0 w0) as K. rewrite H in K. simpl in K.
  apply ensure_resolved_sets_container_id in E as [Hs Hk]. rewrite K. split; [assumption|].
  destruct (truthy (ContainerRestarter.container_id self)); [left|now right].
  now destruct Hk as [-> _].
Qed.

(** C6: when the [try] block of an iteration raises an error, the iteration
    ends with no cached identifier, so that the next one starts by resolving
    the name; when it raises nothing, the iteration ends with an identifier
    in the cache (the one it started with, if it had one). *)
Theorem error_clears_container_id (self : ContainerRestarter.t) (w : World) :
  let '(r, _, _) := ContainerRestarter.attempt self w in
  let '(_, self', _) := ContainerRestarter.iteration self w in
  match r with
  | inl e =>
      if is_Exception e then
        ContainerRestarter.container_id self' = None
        /\ forall w2, ContainerRestarter.ensure_resolved self' w2
                      = ContainerRestarter.resolve self' w2
      else True
  | inr _ =>
      is_Some (ContainerRestarter.container_id self')
      /\ (ContainerRestarter.container_id self' = ContainerRestarter.container_id self
          \/ truthy (ContainerRestarter.container_id self) = false)
  end.
Proof.
  rewrite iteration_unfold.
  destruct (ContainerRestarter.attempt self w) as [[[e|[]] s1] w1] eqn:E.
  - destruct (is_Exception e); [|exact I].
    pose proof (time_sleep_state
                  (ContainerRestarter.check_interval (ContainerRestarter.cfg s1))
                  (ContainerRestarter.set_container_id None s1) w1) as K.
    destruct (time_sleep _ _ w1) as [[r' self'] w']. simpl in K. subst self'.
    split; [reflexivity|]. intros w2. reflexivity.
  - pose proof (time_sleep_state
                  (ContainerRestarter.check_interval (ContainerRestarter.cfg s1)) s1 w1) as K.
    destruct (time_sleep _ _ w1) as [[r' self'] w']. simpl in K. subst self'.
    eapply attempt_sets_container_id, E.
Qed.

(** ** C8 and C1: the day guard *)

Lemma act_due (s : ContainerRestarter.t) (w : World) (th tm : Z) :
  strptime_HM (ContainerRestarter.restart_time (ContainerRestarter.cfg s)) = Some (th, tm) ->
  hour_of (next_now w) = th -> minute_of (next_now w) = tm ->
  ContainerRestarter.last_restart_date s <> Some (date_of (next_now w)) ->
  ContainerRestarter.act s w = ContainerRestarter.restart_now s (tick_clock w).
Proof.
  intros Hp Hh Hm Hd. unfold ContainerRestarter.act, bind.
  rewrite (should_restart_eval _ _ _ _ Hp).
  apply Z.eqb_eq in Hh, Hm. rewrite Hh, Hm.
  rewrite bool_decide_eq_false_2 by assumption. reflexivity.
Qed.

Lemma act_not_due (s : ContainerRestarter.t) (w : World) (th tm : Z) :
  strptime_HM (ContainerRestarter.restart_time (ContainerRestarter.cfg s)) = Some (th, tm) ->
  ContainerRestarter.last_restart_date s = Some (date_of (next_now w)) ->
  ContainerRestarter.act s w = ContainerRestarter.idle s (tick_clock w).
Proof.
  intros Hp Hd. unfold ContainerRestarter.act, bind.
  rewrite (should_restart_eval _ _ _ _ Hp).
  rewrite bool_decide_eq_true_2 by assumption.
  rewrite andb_false_r. reflexivity.
Qed.

Lemma restart_now_unfold (s : ContainerRestarter.t) (w : World) :
  ContainerRestarter.restart_now s w =
  match PortainerAPI.restart_container
          (ContainerRestarter.endpoint_id (ContainerRestarter.cfg s))
          (ContainerRestarter.container_id s) (ContainerRestarter.api s) w with
  | (inr _, a, w') =>
      (inr tt,
       ContainerRestarter.set_last_restart_date (Some (date_of (next_now w')))
         (ContainerRestarter.set_api a s),
       tick_clock w')
  | (inl e, a, w') => (inl e, ContainerRestarter.set_api a s, w')
  end.
Proof.
  unfold ContainerRestarter.restart_now, bind, get_self, ContainerRestarter.on_api.
  destruct (PortainerAPI.restart_container _ _ _ w) as [[[e|b] a] w']; reflexivity.
Qed.

(** C8: when a restart is due and the restart call raises an error, the
    iteration leaves the date of the last restart as it was and clears the
    cached identifier, changing nothing else but what the client itself
    cached; a later iteration that resolves the identifier while the clock
    still shows that day, hour and minute therefore calls the restart
    again. *)
Theorem failed_restart_keeps_date
    (self s1 : ContainerRestarter.t) (w w1 w3 : World) (th tm : Z)
    (e : exn) (a3 : PortainerAPI.t) :
  ContainerRestarter.ensure_resolved self w = (inr tt, s1, w1) ->
  strptime_HM (ContainerRestarter.restart_time (ContainerRestarter.cfg self)) = Some (th, tm) ->
  hour_of (next_now w1) = th -> minute_of (next_now w1) = tm ->
  ContainerRestarter.last_restart_date self <> Some (date_of (next_now w1)) ->
  PortainerAPI.restart_container
    (ContainerRestarter.endpoint_id (ContainerRestarter.cfg s1))
    (ContainerRestarter.container_id s1) (ContainerRestarter.api s1) (tick_clock w1)
  = (inl e, a3, w3) ->
  is_Exception e = true ->
  let '(_, self', _) := ContainerRestarter.iteration self w in
  self' = ContainerRestarter.set_container_id None (ContainerRestarter.set_api a3 s1)
  /\ ContainerRestarter.last_restart_date self' = ContainerRestarter.last_restart_date self
  /\ ContainerRestarter.container_id self' = None
  /\ forall (w2 w2' : World) (s2 : ContainerRestarter.t),
      ContainerRestarter.ensure_resolved self' w2 = (inr tt, s2, w2') ->
      date_of (next_now w2') = date_of (next_now w1) ->
      hour_of (next_now w2') = th -> minute_of (next_now w2') = tm ->
      ContainerRestarter.attempt self' w2 = ContainerRestarter.restart_now s2 (tick_clock w2').
Proof.
  intros He Hp Hh Hm Hd Hr Hx.
  pose proof (ensure_resolved_keeps_cfg self w) as Kc.
  pose proof (ensure_resolved_keeps_date self w) as Kd.
  rewrite He in Kc, Kd. simpl in Kc, Kd.
  rewrite iteration_unfold, attempt_unfold, He.
  rewrite (act_due s1 w1 th tm) by (rewrite ?Kc, ?Kd; assumption).
  rewrite restart_now_unfold, Hr, Hx.
  pose proof (time_sleep_state
                (ContainerRestarter.check_interval
                   (ContainerRestarter.cfg (ContainerRestarter.set_api a3 s1)))
                (ContainerRestarter.set_container_id None (ContainerRestarter.set_api a3 s1))
                w3) as K.
  destruct (time_sleep _ _ w3) as [[r' self'] w']. simpl in K. subst self'.
  split; [reflexivity|]. split; [exact Kd|]. split; [reflexivity|].
  intros w2 w2' s2 He2 Hday Hh2 Hm2.
  pose proof (ensure_resolved_keeps_cfg
                (ContainerRestarter.set_container_id None (ContainerRestarter.set_api a3 s1))
                w2) as Kc2.
  pose proof (ensure_resolved_keeps_date
                (ContainerRestarter.set_container_id None (ContainerRestarter.set_api a3 s1))
                w2) as Kd2.
  rewrite He2 in Kc2, Kd2. simpl in Kc2, Kd2.
  rewrite attempt_unfold, He2.
  apply (act_due s2 w2' th tm); try assumption.
  - now rewrite Kc2, Kc.
  - now rewrite Kd2, Kd, Hday.
Qed.

Lemma failed_restart_keeps_date_witness :
  let self' := (ContainerRestarter.iteration key_restarter (world_of flaky_server)).1.2 in
  ContainerRestarter.last_restart_date self' = None
  /\ ContainerRestarter.container_id self' = None
  /\ forall (w2 w2' : World) (s2 : ContainerRestarter.t),
      ContainerRestarter.ensure_resolved self' w2 = (inr tt, s2, w2') ->
      next_now w2' = three_am ->
      ContainerRestarter.attempt self' w2 = ContainerRestarter.restart_now s2 (tick_clock w2').
Proof.
  pose proof (failed_restart_keeps_date key_restarter
                (ContainerRestarter.set_container_id (Some "abc123") key_restarter)
                (world_of flaky_server)
                (record_request (GET (PortainerAPI.list_url key_client "1")
                                   [("X-API-Key", "ptr_secret")]) (world_of flaky_server))
                (record_request
                   (POST (PortainerAPI.restart_url key_client "1" (Some "abc123"))
                      [("X-API-Key", "ptr_secret")] None)
                   (tick_clock
                      (record_request (GET (PortainerAPI.list_url key_client "1")
                                         [("X-API-Key", "ptr_secret")])
                         (world_of flaky_server))))
                3 0 (RequestException "500 Server Error") key_client
                eq_refl eq_refl eq_refl eq_refl ltac:(discriminate) eq_refl eq_refl) as H.
  destruct (ContainerRestarter.iteration key_restarter (world_of flaky_server))
    as [[r self'] w'].
  destruct H as (_ & Hd & Hc & Hlater). simpl.
  split; [exact Hd|]. split; [exact Hc|].
  intros w2 w2' s2 He2 Hnow. apply Hlater; [exact He2 | | |]; now rewrite Hnow.
Defined.

Lemma restart_now_evolves : preserves evolves ContainerRestarter.restart_now.
Proof. unfold ContainerRestarter.restart_now. preserves_crush. Qed.

Lemma idle_offline : preserves offline ContainerRestarter.idle.
Proof. unfold ContainerRestarter.idle. preserves_crush. Qed.

(** [act] begins by reading the clock. *)
Lemma act_moves_clock (s : ContainerRestarter.t) (w : World) :
  evolves (tick_clock w) (ContainerRestarter.act s w).2.
Proof.
  unfold ContainerRestarter.act, bind.
  destruct (strptime_HM (ContainerRestarter.restart_time (ContainerRestarter.cfg s)))
    as [[th tm]|] eqn:Hp.
  - rewrite (should_restart_eval _ _ _ _ Hp).
    destruct (_ && _ && _).
    + apply restart_now_evolves.
    + apply idle_offline.
  - unfold ContainerRestarter._should_restart, bind, get_self, datetime_now, raise.
    rewrite Hp. simpl. reflexivity.
Qed.

(** A restart call that returns has sent exactly one restart request. *)
Lemma restart_container_success
    (endpoint : string) (id : option string) (a a' : PortainerAPI.t) (w w' : World) (b : bool) :
  PortainerAPI.restart_container endpoint id a w = (inr b, a', w') ->
  restarts w' = S (restarts w).
Proof.
  unfold PortainerAPI.restart_container, bind, get_self.
  pose proof (get_headers_no_restart a w) as [_ Hq].
  destruct (PortainerAPI._get_headers a w) as [[[e|hdrs] a1] w1]; [discriminate|].
  simpl in Hq. unfold except_Exception, http, ret, raise.
  destruct (server w1 _ _) as [body|e].
  - intros [= _ _ <-]. rewrite restarts_record_request, Hq. simpl. lia.
  - destruct (is_Exception e); discriminate.
Qed.

(** On a day whose restart is recorded, [act] sends nothing and records
    nothing. *)
Lemma act_same_day (s : ContainerRestarter.t) (w : World) (d : Z) :
  ContainerRestarter.last_restart_date s = Some d ->
  date_of (next_now w) = d ->
  restarts (ContainerRestarter.act s w).2 = restarts w
  /\ ContainerRestarter.last_restart_date (ContainerRestarter.act s w).1.2 = Some d.
Proof.
  intros Hd Hday.
  destruct (strptime_HM (ContainerRestarter.restart_time (ContainerRestarter.cfg s)))
    as [[th tm]|] eqn:Hp.
  - rewrite (act_not_due s w th tm) by (rewrite ?Hday; assumption).
    pose proof (idle_offline s (tick_clock w)) as [_ Hs].
    pose proof (idle_keeps_self s (tick_clock w)) as Hk. unfold id in Hk.
    rewrite Hk. split; [|assumption]. unfold restarts. now rewrite Hs.
  - unfold ContainerRestarter.act, ContainerRestarter._should_restart, bind, get_self,
      datetime_now, raise.
    rewrite Hp. simpl. split; [reflexivity | assumption].
Qed.

(** An iteration all of whose clock readings fall on the recorded day. *)
Lemma iteration_same_day (self : ContainerRestarter.t) (w : World) (d : Z) :
  ContainerRestarter.last_restart_date self = Some d ->
  let '(_, self', w') := ContainerRestarter.iteration self w in
  (forall i, (reads w <= i < reads w')%nat -> date_of (clock w i) = d) ->
  restarts w' = restarts w /\ ContainerRestarter.last_restart_date self' = Some d.
Proof.
  intros Hd. rewrite iteration_unfold, attempt_unfold.
  pose proof (ensure_resolved_no_restart self w) as [(Hck & _ & _ & Hrd & _) Hq0].
  pose proof (ensure_resolved_keeps_date self w) as Kd.
  destruct (ContainerRestarter.ensure_resolved self w) as [[[e|[]] s0] w0];
    simpl in Hck, Hrd, Hq0, Kd.
  - (* the lookup raised *)
    assert (Hd0 : ContainerRestarter.last_restart_date s0 = Some d) by congruence.
    destruct (is_Exception e); [|intros _; split; assumption].
    pose proof (time_sleep_state
                  (ContainerRestarter.check_interval (ContainerRestarter.cfg s0))
                  (ContainerRestarter.set_container_id None s0) w0) as K.
    pose proof (preserves_sleep no_restart
                  (ContainerRestarter.check_interval (ContainerRestarter.cfg s0))
                  (fun w => no_restart_nap _ w)
                  (ContainerRestarter.set_container_id None s0) w0) as [_ Hq].
    destruct (time_sleep _ _ w0) as [[r' self'] w']. simpl in K, Hq. subst self'.
    intros _. split; [congruence | assumption].
  - (* the identifier is there: the decision is taken *)
    assert (Hd0 : ContainerRestarter.last_restart_date s0 = Some d) by congruence.
    pose proof (act_moves_clock s0 w0) as (_ & _ & _ & Hrd1 & _).
    pose proof (fun H => act_same_day s0 w0 d Hd0 H) as Hact.
    destruct (ContainerRestarter.act s0 w0) as [[[e|[]] s1] w1]; simpl in Hrd1, Hact.
    + destruct (is_Exception e).
      * pose proof (time_sleep_state
                      (ContainerRestarter.check_interval (ContainerRestarter.cfg s1))
                      (ContainerRestarter.set_container_id None s1) w1) as K.
        pose proof (preserves_sleep no_restart
                      (ContainerRestarter.check_interval (ContainerRestarter.cfg s1))
                      (fun w => no_restart_nap _ w)
                      (ContainerRestarter.set_container_id None s1) w1)
          as [(_ & _ & _ & Hrd2 & _) Hq].
        destruct (time_sleep _ _ w1) as [[r' self'] w']. simpl in K, Hq, Hrd2. subst self'.
        intros Hall. destruct Hact as [Hq1 Hd1].
        { unfold next_now. rewrite Hck. apply Hall. lia. }
        split; [congruence | exact Hd1].
      * intros Hall. destruct Hact as [Hq1 Hd1].
        { unfold next_now. rewrite Hck. apply Hall. lia. }
        split; [congruence | exact Hd1].
    + pose proof (time_sleep_state
                    (ContainerRestarter.check_interval (ContainerRestarter.cfg s1)) s1 w1) as K.
      pose proof (preserves_sleep no_restart
                    (ContainerRestarter.check_interval (ContainerRestarter.cfg s1))
                    (fun w => no_restart_nap _ w) s1 w1)
        as [(_ & _ & _ & Hrd2 & _) Hq].
      destruct (time_sleep _ _ w1) as [[r' self'] w']. simpl in K, Hq, Hrd2. subst self'.
      intros Hall. destruct Hact as [Hq1 Hd1].
      { unfold next_now. rewrite Hck. apply Hall. lia. }
      split; [congruence | exact Hd1].
Qed.

Lemma loop_same_day (n : nat) (self : ContainerRestarter.t) (w : World) (d : Z) :
  ContainerRestarter.last_restart_date self = Some d ->
  let '(_, self', w') := ContainerRestarter.loop n self w in
  (forall i, (reads w <= i < reads w')%nat -> date_of (clock w i) = d) ->
  restarts w' = restarts w /\ ContainerRestarter.last_restart_date self' = Some d.
Proof.
  revert self w. induction n as [|n IH]; intros self w Hd; simpl.
  - intros _. split; [reflexivity | assumption].
  - unfold bind.
    pose proof (iteration_same_day self w d Hd) as H1.
    pose proof (iteration_evolves self w) as (Hck & _ & _ & Hrd & _).
    destruct (ContainerRestarter.iteration self w) as [[[e|[]] s1] w1]; simpl in Hck, Hrd.
    + exact H1.
    + pose proof (loop_evolves n s1 w1) as (_ & _ & _ & Hrd' & _).
      destruct (ContainerRestarter.loop n s1 w1) as [[r' self'] w'] eqn:E.
      simpl in Hrd'. intros Hall.
      destruct H1 as [Hq1 Hd1]; [intros i Hi; apply Hall; lia|].
      specialize (IH s1 w1 Hd1). rewrite E in IH.
      destruct IH as [Hq2 Hd2].
      { intros i Hi. rewrite Hck. apply Hall. lia. }
      split; [congruence | assumption].
Qed.

(** C1, as amended: on an iteration in which the identifier is there or
    gets resolved, the current time has the hour and the minute of the
    restart time, no restart is recorded for the current date, and the
    restart call returns without error on that same date, exactly one
    restart request is sent and the date is recorded; in the iterations
    that follow, as long as the clock readings stay on that date (a second
    iteration within the same minute included), no restart request is sent
    and the recorded date stays. *)
Theorem restart_once_per_day
    (self s1 : ContainerRestarter.t) (w w1 w3 : World) (th tm : Z)
    (a3 : PortainerAPI.t) (n : nat) :
  ContainerRestarter.ensure_resolved self w = (inr tt, s1, w1) ->
  strptime_HM (ContainerRestarter.restart_time (ContainerRestarter.cfg self)) = Some (th, tm) ->
  hour_of (next_now w1) = th -> minute_of (next_now w1) = tm ->
  ContainerRestarter.last_restart_date self <> Some (date_of (next_now w1)) ->
  PortainerAPI.restart_container
    (ContainerRestarter.endpoint_id (ContainerRestarter.cfg s1))
    (ContainerRestarter.container_id s1) (ContainerRestarter.api s1) (tick_clock w1)
  = (inr true, a3, w3) ->
  date_of (next_now w3) = date_of (next_now w1) ->
  let today := date_of (next_now w1) in
  let '(_, self1, wa) := ContainerRestarter.iteration self w in
  let '(_, selfn, wb) := ContainerRestarter.loop n self1 wa in
  restarts wa = S (restarts w)
  /\ ContainerRestarter.last_restart_date self1 = Some today
  /\ ((forall i, (reads wa <= i < reads wb)%nat -> date_of (clock w i) = today) ->
      restarts wb = restarts wa
      /\ ContainerRestarter.last_restart_date selfn = Some today).
Proof.
  intros He Hp Hh Hm Hd Hr Hday today.
  pose proof (ensure_resolved_keeps_cfg self w) as Kc.
  pose proof (ensure_resolved_keeps_date self w) as Kd.
  pose proof (ensure_resolved_no_restart self w) as [_ Hq0].
  rewrite He in Kc, Kd, Hq0. simpl in Kc, Kd, Hq0.
  pose proof (iteration_evolves self w) as (Hck & _).
  pose proof (loop_same_day n) as Hloop.
  rewrite iteration_unfold, attempt_unfold, He in *.
  rewrite (act_due s1 w1 th tm) in * by (rewrite ?Kc, ?Kd; assumption).
  rewrite restart_now_unfold, Hr in *.
  apply restart_container_success in Hr.
  set (s4 := ContainerRestarter.set_last_restart_date (Some (date_of (next_now w3)))
               (ContainerRestarter.set_api a3 s1)) in *.
  pose proof (time_sleep_state
                (ContainerRestarter.check_interval (ContainerRestarter.cfg s4))
                s4 (tick_clock w3)) as K.
  pose proof (preserves_sleep no_restart
                (ContainerRestarter.check_interval (ContainerRestarter.cfg s4))
                (fun w => no_restart_nap _ w) s4 (tick_clock w3)) as [_ Hq].
  destruct (time_sleep _ s4 (tick_clock w3)) as [[r1 self1] wa].
  simpl in K, Hq, Hck. subst self1.
  assert (Hrec : ContainerRestarter.last_restart_date s4 = Some today)
    by (unfold s4, today; simpl; now rewrite Hday).
  specialize (Hloop s4 wa today Hrec).
  destruct (ContainerRestarter.loop n s4 wa) as [[rn selfn] wb].
  split; [|split; [exact Hrec|]].
  - rewrite Hq. unfold restarts in *. simpl in *. now rewrite Hr, Hq0.
  - intros Hall. apply Hloop. intros i Hi. rewrite Hck. now apply Hall.
Qed.

Lemma restart_once_per_day_witness :
  let '(_, self1, wa) := ContainerRestarter.iteration key_restarter (world_of good_server) in
  let '(_, selfn, wb) := ContainerRestarter.loop 3 self1 wa in
  restarts wa = 1%nat /\ restarts wb = 1%nat
  /\ ContainerRestarter.last_restart_date selfn = Some (date_of three_am).
Proof.
  pose proof (restart_once_per_day key_restarter
                (ContainerRestarter.set_container_id (Some "abc123") key_restarter)
                (world_of good_server)
                (record_request (GET (PortainerAPI.list_url key_client "1")
                                   [("X-API-Key", "ptr_secret")]) (world_of good_server))
                (record_request
                   (POST (PortainerAPI.restart_url key_client "1" (Some "abc123"))
                      [("X-API-Key", "ptr_secret")] None)
                   (tick_clock
                      (record_request (GET (PortainerAPI.list_url key_client "1")
                                         [("X-API-Key", "ptr_secret")])
                         (world_of good_server))))
                3 0 key_client 3
                eq_refl eq_refl eq_refl eq_refl ltac:(discriminate) eq_refl eq_refl) as H.
  destruct (ContainerRestarter.iteration key_restarter (world_of good_server))
    as [[r1 self1] wa].
  destruct (ContainerRestarter.loop 3 self1 wa) as [[rn selfn] wb].
  destruct H as (Ha & _ & Hlater).
  destruct Hlater as [Hb Hd]; [intros i _; reflexivity|].
  split; [exact Ha|]. split; [now rewrite Hb | exact Hd].
Defined.

(** C1 as stated fails when the restart call fails: the time matches and
    nothing is recorded for the day, the restart is called, but no date is
    recorded, and the next iteration, in the same minute, calls the restart
    again. *)
Lemma failed_restart_fires_again :
  strptime_HM (ContainerRestarter.restart_time (ContainerRestarter.cfg key_restarter))
  = Some (hour_of three_am, minute_of three_am)
  /\ ContainerRestarter.last_restart_date key_restarter = None
  /\ let '(_, s1, w1) := ContainerRestarter.iteration key_restarter (world_of flaky_server) in
     let '(_, s2, w2) := ContainerRestarter.iteration s1 w1 in
     restarts w1 = 1%nat
     /\ ContainerRestarter.last_restart_date s1 = None
     /\ (forall i, clock w2 i = three_am)
     /\ restarts w2 = 2%nat
     /\ ContainerRestarter.last_restart_date s2 = Some (date_of three_am).
Proof. vm_compute. repeat split. Qed.

(** ** The restart time as text *)

Example strptime_examples :
  strptime_HM "03:00" = Some (3, 0) /\ strptime_HM "23:59" = Some (23, 59) /\
  strptime_HM "3:00" = Some (3, 0) /\ strptime_HM "7:5" = Some (7, 5) /\
  strptime_HM "24:00" = None /\ strptime_HM "12:60" = None /\
  strptime_HM "12:345" = None /\ strptime_HM "" = None /\ strptime_HM "0300" = None.
Proof. vm_compute. repeat split. Qed.

Example py_int_examples :
  py_int "60" = Some 60 /\ py_int " -1 " = Some (-1) /\ py_int "1_0" = Some 10 /\
  py_int "1__0" = None /\ py_int "" = None /\ py_int "6 0" = None /\ py_int "+007" = Some 7
  /\ py_int "_1" = None /\ py_int "1_" = None /\ py_int "- 1" = None.
Proof. vm_compute. repeat split. Qed.

Example datetime_examples :
  hour_of (mk_datetime 738000 3 0 59) = 3 /\ minute_of (mk_datetime 738000 3 0 59) = 0 /\
  date_of (mk_datetime 738000 23 59 59) = 738000.
Proof. vm_compute. repeat split. Qed.

Lemma is_digit_range (a : ascii) : is_digit a = true -> 0 <= digit_val a <= 9.
Proof. unfold is_digit, digit_val. intros H. apply andb_true_iff in H as [H1 H2]. lia. Qed.

Lemma in_range_spec (lo hi : Z) (a : ascii) :
  in_range lo hi a = true <-> is_digit a = true /\ lo <= digit_val a <= hi.
Proof. unfold in_range. rewrite !andb_true_iff, !Z.leb_le. tauto. Qed.

Lemma digit_two (a : ascii) :
  Ascii.eqb a "2" = true <-> is_digit a = true /\ digit_val a = 2.
Proof.
  split.
  - intros H. apply Ascii.eqb_eq in H. subst a. split; reflexivity.
  - intros [_ H]. apply Ascii.eqb_eq. unfold digit_val in H.
    rewrite <- (ascii_N_embedding a).
    replace (N_of_ascii a) with 50%N by lia. reflexivity.
Qed.

Lemma directive_H_range (s r : list ascii) (h : Z) :
  (h, r) ∈ directive_H s -> 0 <= h <= 23.
Proof.
  destruct s as [|a [|b rest]]; simpl.
  - intros H. inversion H.
  - destruct (is_digit a) eqn:Da; intros H.
    + apply list_elem_of_singleton in H. injection H as -> _.
      apply is_digit_range in Da. lia.
    + inversion H.
  - intros H. apply elem_of_app in H as [H|H].
    + destruct (_ || _) eqn:C; [|inversion H].
      apply list_elem_of_singleton in H. injection H as -> _.
      apply orb_true_iff in C as [C|C]; apply andb_true_iff in C as [C1 C2].
      * apply digit_two in C1 as [_ C1]. apply in_range_spec in C2. lia.
      * apply in_range_spec in C1. apply is_digit_range in C2. lia.
    + destruct (is_digit a) eqn:Da; [|inversion H].
      apply list_elem_of_singleton in H. injection H as -> _.
      apply is_digit_range in Da. lia.
Qed.

Lemma directive_M_range (s r : list ascii) (m : Z) :
  (m, r) ∈ directive_M s -> 0 <= m <= 59.
Proof.
  destruct s as [|a [|b rest]]; simpl.
  - intros H. inversion H.
  - destruct (is_digit a) eqn:Da; intros H.
    + apply list_elem_of_singleton in H. injection H as -> _.
      apply is_digit_range in Da. lia.
    + inversion H.
  - intros H. apply elem_of_app in H as [H|H].
    + destruct (_ && _) eqn:C; [|inversion H].
      apply list_elem_of_singleton in H. injection H as -> _.
      apply andb_true_iff in C as [C1 C2].
      apply in_range_spec in C1. apply is_digit_range in C2. lia.
    + destruct (is_digit a) eqn:Da; [|inversion H].
      apply list_elem_of_singleton in H. injection H as -> _.
      apply is_digit_range in Da. lia.
Qed.

(** A time that [strptime] accepts is a time of the day. *)
Lemma strptime_HM_range (text : string) (h m : Z) :
  strptime_HM text = Some (h, m) -> 0 <= h <= 23 /\ 0 <= m <= 59.
Proof.
  unfold strptime_HM.
  destruct (matches_HM (list_ascii_of_string text)) as [|[[h' m'] [|]] l] eqn:E;
    try discriminate.
  intros [= <- <-].
  assert (H : (h', m', []) ∈ matches_HM (list_ascii_of_string text))
    by (rewrite E; left).
  unfold matches_HM in H.
  apply list_elem_of_bind in H as ([h1 s1] & H & Hh).
  apply list_elem_of_bind in H as (s2 & H & _).
  apply list_elem_of_bind in H as ([m1 s3] & H & Hm).
  apply list_elem_of_singleton in H. injection H as -> -> _.
  split; [eapply directive_H_range, Hh | eapply directive_M_range, Hm].
Qed.

(** Every time written HH:MM is accepted, with the value it denotes. *)
Lemma HHMM_24h_accepted (text : string) :
  HHMM_24h text = true -> exists h m, strptime_HM text = Some (h, m).
Proof.
  unfold HHMM_24h, strptime_HM.
  destruct (list_ascii_of_string text) as [|a [|b [|c [|d [|e [|]]]]]]; try discriminate.
  rewrite !andb_true_iff, !Z.leb_le.
  intros ((((((Da & Db) & Hc) & Dd) & De) & Hh) & Hm).
  apply Ascii.eqb_eq in Hc. subst c.
  pose proof (is_digit_range _ Da). pose proof (is_digit_range _ Db).
  pose proof (is_digit_range _ Dd). pose proof (is_digit_range _ De).
  assert (CH : (Ascii.eqb a "2" && in_range 0 3 b) || (in_range 0 1 a && is_digit b) = true).
  { apply orb_true_iff. destruct (Z.eq_dec (digit_val a) 2) as [E|E].
    - left. apply andb_true_iff. split; [now apply digit_two|].
      apply in_range_spec. split; [assumption | lia].
    - right. apply andb_true_iff. split; [|assumption].
      apply in_range_spec. split; [assumption | lia]. }
  assert (CM : in_range 0 5 d && is_digit e = true).
  { apply andb_true_iff. split; [|assumption].
    apply in_range_spec. split; [assumption | lia]. }
  unfold matches_HM. simpl. rewrite CH. simpl. rewrite CM. simpl. eauto.
Qed.

(** ** C9 and C7: configuration *)

(** The checks of [_validate_config], one by one. *)
Lemma validate_config_ok (c : ContainerRestarter.config) :
  truthy (ContainerRestarter.portainer_url c) = true ->
  truthy (ContainerRestarter.api_key c)
  || (truthy (ContainerRestarter.username c) && truthy (ContainerRestarter.password c)) = true ->
  truthy (ContainerRestarter.container_name c) = true ->
  strptime_HM (ContainerRestarter.restart_time c) <> None ->
  ContainerRestarter._validate_config c = inr tt.
Proof.
  intros Hu Ha Hn Ht. unfold ContainerRestarter._validate_config.
  rewrite Hu, Hn. simpl.
  destruct (truthy (ContainerRestarter.api_key c)); simpl in *;
    [|rewrite Ha; simpl];
    (destruct (strptime_HM _); [reflexivity | congruence]).
Qed.

Lemma validate_config_fails (c : ContainerRestarter.config) :
  truthy (ContainerRestarter.portainer_url c) = false
  \/ (truthy (ContainerRestarter.api_key c) = false
      /\ (truthy (ContainerRestarter.username c) = false
          \/ truthy (ContainerRestarter.password c) = false))
  \/ truthy (ContainerRestarter.container_name c) = false
  \/ strptime_HM (ContainerRestarter.restart_time c) = None ->
  exists msg, ContainerRestarter._validate_config c = inl (ValueError msg).
Proof.
  unfold ContainerRestarter._validate_config.
  intros H.
  destruct (truthy (ContainerRestarter.portainer_url c)); simpl; [|eauto].
  destruct (truthy (ContainerRestarter.api_key c)) eqn:Ek,
           (truthy (ContainerRestarter.username c)) eqn:Eu,
           (truthy (ContainerRestarter.password c)) eqn:Ep; simpl; eauto;
    (destruct (truthy (ContainerRestarter.container_name c)) eqn:En; simpl; [|eauto];
     destruct (strptime_HM _) eqn:Et; [|eauto];
     exfalso; destruct H as [H|[[H1 [H2|H2]]|[H|H]]]; congruence).
Qed.

(** C9: when the optional variables are unset, the configuration read
    from the environment has endpoint id '1', restart time '03:00' and a
    check interval of 60 seconds; the time passes the format check, the
    interval is one that [time.sleep] accepts, and the constructor succeeds
    whenever the required variables are given. *)
Theorem defaults_pass_validation (environ : gmap string string) :
  environ !! "ENDPOINT_ID" = None ->
  environ !! "RESTART_TIME" = None ->
  environ !! "CHECK_INTERVAL" = None ->
  exists c : ContainerRestarter.config,
    ContainerRestarter.read_config environ = inr c
    /\ ContainerRestarter.endpoint_id c = "1"
    /\ ContainerRestarter.restart_time c = "03:00"
    /\ ContainerRestarter.check_interval c = 60
    /\ strptime_HM (ContainerRestarter.restart_time c) = Some (3, 0)
    /\ (truthy (environ !! "PORTAINER_URL") = true ->
        truthy (environ !! "PORTAINER_API_KEY")
        || (truthy (environ !! "PORTAINER_USERNAME")
            && truthy (environ !! "PORTAINER_PASSWORD")) = true ->
        truthy (environ !! "CONTAINER_NAME") = true ->
        ContainerRestarter._validate_config c = inr tt
        /\ forall w, exists r,
             ContainerRestarter.__init__ environ tt w = (inr r, tt, w)
             /\ ContainerRestarter.cfg r = c).
Proof.
  intros He Ht Hi.
  unfold ContainerRestarter.read_config, getenv_or, getenv. rewrite He, Ht, Hi. simpl.
  change (py_int "60") with (Some 60).
  eexists. split; [reflexivity|]. simpl. repeat split.
  - apply validate_config_ok; simpl; try assumption. discriminate.
  - intros w. unfold ContainerRestarter.__init__, ContainerRestarter.read_config,
      getenv_or, getenv.
    rewrite He, Ht, Hi. simpl. change (py_int "60") with (Some 60).
    rewrite validate_config_ok; simpl; try assumption; [|discriminate].
    destruct (environ !! "PORTAINER_URL") as [u|]; [|discriminate].
    eexists. split; reflexivity.
Qed.

Lemma defaults_pass_validation_witness :
  exists c : ContainerRestarter.config,
    ContainerRestarter.read_config env_key = inr c
    /\ ContainerRestarter.endpoint_id c = "1"
    /\ ContainerRestarter.restart_time c = "03:00"
    /\ ContainerRestarter.check_interval c = 60
    /\ ContainerRestarter._validate_config c = inr tt.
Proof.
  destruct (defaults_pass_validation env_key eq_refl eq_refl eq_refl)
    as (c & Hc & H1 & H2 & H3 & _ & Hv).
  exists c. repeat split; try assumption.
  apply Hv; reflexivity.
Defined.




(** ** C4: how the process ends *)

Lemma not_Exception (e : exn) : is_Exception e = false -> e = KeyboardInterrupt.
Proof. destruct e; simpl; congruence. Qed.

(** With a length it accepts, [time.sleep] returns or is interrupted. *)
Lemma time_sleep_accepts {S} (secs : Z) (s : S) (w : World) :
  0 <= secs <= max_sleep ->
  (time_sleep secs s w).1.1 = inr tt \/ (time_sleep secs s w).1.1 = inl KeyboardInterrupt.
Proof.
  intros H. unfold time_sleep, max_sleep in *.
  repeat match goal with
         | |- context [?a <? ?b] => destruct (Z.ltb_spec a b); try lia
         end.
  simpl. destruct (ctrl_c w _); auto.
Qed.

(** Every error of the [try] block is swallowed: with a check interval that
    [time.sleep] accepts, an iteration ends normally or by Ctrl-C. *)
Lemma iteration_survives (self : ContainerRestarter.t) (w : World) :
  0 <= ContainerRestarter.check_interval (ContainerRestarter.cfg self) <= max_sleep ->
  (ContainerRestarter.iteration self w).1.1 = inr tt
  \/ (ContainerRestarter.iteration self w).1.1 = inl KeyboardInterrupt.
Proof.
  intros H. rewrite iteration_unfold.
  pose proof (keeps_bind ContainerRestarter.cfg _ _ ensure_resolved_keeps_cfg
                (fun _ => act_keeps_cfg) self w) as Kc.
  change (bind ContainerRestarter.ensure_resolved (fun _ => ContainerRestarter.act))
    with ContainerRestarter.attempt in Kc.
  destruct (ContainerRestarter.attempt self w) as [[[e|[]] s1] w1]; simpl in Kc.
  - destruct (is_Exception e) eqn:X.
    + apply time_sleep_accepts. simpl. now rewrite Kc.
    + right. simpl. f_equal. now apply not_Exception.
  - apply time_sleep_accepts. now rewrite Kc.
Qed.

Lemma loop_survives (n : nat) (self : ContainerRestarter.t) (w : World) :
  0 <= ContainerRestarter.check_interval (ContainerRestarter.cfg self) <= max_sleep ->
  (ContainerRestarter.loop n self w).1.1 = inr tt
  \/ (ContainerRestarter.loop n self w).1.1 = inl KeyboardInterrupt.
Proof.
  revert self w. induction n as [|n IH]; intros self w H; simpl; [now left|].
  unfold bind.
  pose proof (iteration_survives self w H) as Hi.
  pose proof (iteration_keeps_cfg self w) as Kc.
  destruct (ContainerRestarter.iteration self w) as [[[e|[]] s1] w1]; simpl in *.
  - destruct Hi as [Hi|Hi]; [discriminate | now right].
  - apply IH. now rewrite Kc.
Qed.

(** After a successful construction and with a check interval that
    [time.sleep] accepts, [main] is still running after any number of
    iterations unless Ctrl-C was pressed, in which case it has exited with
    code 0. *)
Lemma main_keeps_running
    (environ : gmap string string) (n : nat) (w w0 : World) (r : ContainerRestarter.t) :
  ContainerRestarter.__init__ environ tt w = (inr r, tt, w0) ->
  0 <= ContainerRestarter.check_interval (ContainerRestarter.cfg r) <= max_sleep ->
  (main environ n w).1 = Running \/ (main environ n w).1 = Exited 0.
Proof.
  intros Hi Hc. unfold main. rewrite Hi.
  unfold ContainerRestarter.run, ContainerRestarter.startup, bind, except_Exception.
  pose proof (resolve_keeps_cfg r w0) as Kc.
  destruct (ContainerRestarter.resolve r w0) as [[[e|[]] s1] w1]; simpl in Kc.
  - destruct (is_Exception e) eqn:X; simpl.
    + pose proof (loop_survives n s1 w1) as L. rewrite Kc in L. specialize (L Hc).
      destruct (ContainerRestarter.loop n s1 w1) as [[[e'|[]] s2] w2]; simpl in *.
      * destruct L as [L|L]; [discriminate|]. injection L as ->. now right.
      * now left.
    + apply not_Exception in X. subst e. now right.
  - pose proof (loop_survives n s1 w1) as L. rewrite Kc in L. specialize (L Hc).
    destruct (ContainerRestarter.loop n s1 w1) as [[[e'|[]] s2] w2]; simpl in *.
    + destruct L as [L|L]; [discriminate|]. injection L as ->. now right.
    + now left.
Qed.

(** C4 fails on the code: with CHECK_INTERVAL=-1 the configuration passes
    the validation and the constructor succeeds; the loop resolves the
    container, restarts it, and then [time.sleep], which stands outside the
    [try] block, refuses the negative length; [main] exits with code 1
    after a successful startup. *)
Theorem negative_interval_exits_after_startup :
  (exists r, ContainerRestarter.__init__ env_negative_interval tt (world_of good_server)
             = (inr r, tt, world_of good_server)
             /\ ContainerRestarter.check_interval (ContainerRestarter.cfg r) = -1)
  /\ (ContainerRestarter.iteration
        (ContainerRestarter.set_container_id (Some "abc123")
           (ContainerRestarter.mk
              (ContainerRestarter.mk_config (Some "http://portainer:9000/")
                 (Some "ptr_secret") None None "1" (Some "web") "03:00" (-1))
              key_client None None))
        (world_of good_server)).1.1
     = inl (ValueError "sleep length must be non-negative")
  /\ forall n, (main env_negative_interval (S n) (world_of good_server)).1 = Exited 1.
Proof.
  split; [eexists; split; reflexivity|]. split; [reflexivity|].
  intros n. reflexivity.
Qed.

(** ** The states the program reaches *)

(** What the constructor guarantees about the object it returns. *)
Lemma init_state (environ : gmap string string) (w w' : World) (r : ContainerRestarter.t) :
  ContainerRestarter.__init__ environ tt w = (inr r, tt, w') ->
  w' = w
  /\ strptime_HM (ContainerRestarter.restart_time (ContainerRestarter.cfg r)) <> None
  /\ truthy (ContainerRestarter.container_name (ContainerRestarter.cfg r)) = true
  /\ token_has_expiry (ContainerRestarter.api r)
  /\ ContainerRestarter.container_id r = None
  /\ ContainerRestarter.last_restart_date r = None.
Proof.
  unfold ContainerRestarter.__init__, raise, ret.
  destruct (ContainerRestarter.read_config environ) as [e|c]; [discriminate|].
  destruct (ContainerRestarter._validate_config c) as [e|[]] eqn:V; [discriminate|].
  destruct (ContainerRestarter.portainer_url c) as [u|] eqn:U; [|discriminate].
  intros [= <- <-]. simpl. repeat split; try apply init_token_has_expiry.
  - intros Ht. unfold ContainerRestarter._validate_config in V.
    rewrite Ht in V. repeat (destruct (negb _ && _) || destruct (negb _)); discriminate.
  - unfold ContainerRestarter._validate_config in V.
    destruct (truthy (ContainerRestarter.container_name c)); [reflexivity|].
    simpl in V. repeat (destruct (negb _ && _) || destruct (negb _)); discriminate.
Qed.

Lemma get_headers_token_has_expiry (self : PortainerAPI.t) (w : World) :
  token_has_expiry self -> token_has_expiry (PortainerAPI._get_headers self w).1.2.
Proof.
  intros WF. unfold PortainerAPI._get_headers, PortainerAPI.token_stale, bind, get_self.
  destruct (truthy (PortainerAPI.api_key self)); simpl; [assumption|].
  destruct (truthy (PortainerAPI.jwt_token self)); simpl.
  - destruct (PortainerAPI.jwt_expiry self) as [expiry|]; simpl; [|assumption].
    destruct (expiry <=? _); simpl; [|assumption].
    pose proof (authenticate_token_has_expiry self (tick_clock w) WF) as H.
    destruct (PortainerAPI._authenticate self (tick_clock w)) as [[[e|[]] sa] wa]; exact H.
  - pose proof (authenticate_token_has_expiry self w WF) as H.
    destruct (PortainerAPI._authenticate self w) as [[[e|[]] sa] wa]; exact H.
Qed.

(** ** A restart that ends after midnight *)

(** The date that is recorded is read after the restart call returns.  A
    restart that starts at 23:59:50 and returns at 00:00:05 records the next
    day, and the iteration at 23:59 of that next day then restarts
    nothing. *)
Example restart_across_midnight :
  let '(_, s1, w1) := ContainerRestarter.iteration late_restarter midnight_world in
  let '(_, s2, w2) := ContainerRestarter.iteration s1 w1 in
  restarts w1 = 1%nat
  /\ ContainerRestarter.last_restart_date s1 = Some 738001
  /\ hour_of (next_now w1) = 23 /\ minute_of (next_now w1) = 59
  /\ date_of (next_now w1) = 738001
  /\ restarts w2 = 1%nat.
Proof. vm_compute. repeat split. Qed.

(** * Further properties *)

(** ** The base URL of the client *)

Lemma rstrip_decompose (u : string) : exists n, u = rstrip "/" u ++ slashes n.
Proof.
  induction u as [|a u [n IH]]; simpl.
  - exists 0%nat. reflexivity.
  - destruct (rstrip "/" u) as [|c r] eqn:E.
    + destruct (Ascii.eqb a "/") eqn:A.
      * apply Ascii.eqb_eq in A. subst a. exists (S n). simpl. now rewrite IH at 1.
      * exists n. simpl. now rewrite IH at 1.
    + exists n. simpl. now rewrite IH at 1.
Qed.

Lemma rstrip_no_trailing (u : string) : ~ ends_with_slash (rstrip "/" u).
Proof.
  induction u as [|a u IH]; simpl; intros [t Ht].
  - destruct t; discriminate.
  - destruct (rstrip "/" u) as [|c r] eqn:E.
    + destruct (Ascii.eqb a "/") eqn:A.
      * destruct t; discriminate.
      * destruct t as [|b t]; simpl in Ht.
        -- injection Ht as ->. discriminate.
        -- injection Ht as _ Ht. destruct t; discriminate.
    + destruct t as [|b t]; simpl in Ht; [discriminate|].
      injection Ht as _ Ht. apply IH. exists t. exact Ht.
Qed.

(** X1: the URL that the constructor of the client keeps does not end with
    a slash, the URL it was given is that URL followed by slashes only, and
    building a client from the kept URL changes nothing. *)
Theorem client_url_stripped (u : string) (key user pass : option string) :
  let a := PortainerAPI.__init__ u key user pass in
  ~ ends_with_slash (PortainerAPI.url a)
  /\ (exists n, u = PortainerAPI.url a ++ slashes n)
  /\ PortainerAPI.__init__ (PortainerAPI.url a) key user pass = a.
Proof.
  simpl. split; [apply rstrip_no_trailing|]. split; [apply rstrip_decompose|].
  unfold PortainerAPI.__init__. f_equal.
  destruct (rstrip_decompose u) as [n E].
  rewrite E at 2. now rewrite rstrip_app_slashes.
Qed.

(** ** Authentication *)

Lemma authenticate_no_credentials (self : PortainerAPI.t) (w : World) :
  truthy (PortainerAPI.username self) = false \/ truthy (PortainerAPI.password self) = false ->
  PortainerAPI._authenticate self w = (inl no_credentials, self, w).
Proof.
  intros H. unfold PortainerAPI._authenticate, bind, get_self.
  destruct H as [-> | ->]; simpl; [reflexivity|].
  rewrite orb_true_r. reflexivity.
Qed.

(** X2: a new client that has neither an API key nor both a user name and
    a password cannot talk to Portainer at all: looking a container up and
    restarting one both raise the [ValueError] of [_authenticate], with no
    request sent, the clock not read and the client unchanged. *)
Theorem no_credentials_no_traffic
    (u : string) (key user pass : option string) (endpoint name : string)
    (id : option string) (w : World) :
  truthy key = false ->
  truthy user = false \/ truthy pass = false ->
  let a := PortainerAPI.__init__ u key user pass in
  PortainerAPI.get_container_id endpoint name a w = (inl no_credentials, a, w)
  /\ PortainerAPI.restart_container endpoint id a w = (inl no_credentials, a, w).
Proof.
  intros Hk Hc a.
  assert (Hh : PortainerAPI._get_headers a w = (inl no_credentials, a, w)).
  { unfold PortainerAPI._get_headers, PortainerAPI.token_stale, bind, get_self. simpl.
    rewrite Hk. simpl. now rewrite (authenticate_no_credentials a w Hc). }
  unfold PortainerAPI.get_container_id, PortainerAPI.restart_container, bind, get_self.
  rewrite Hh. split; reflexivity.
Qed.

Lemma no_credentials_no_traffic_witness :
  PortainerAPI.get_container_id "1" "web"
    (PortainerAPI.__init__ "http://portainer:9000" None (Some "admin") None)
    (world_of good_server)
  = (inl no_credentials,
     PortainerAPI.__init__ "http://portainer:9000" None (Some "admin") None,
     world_of good_server).
Proof.
  apply (no_credentials_no_traffic "http://portainer:9000" None (Some "admin") None
           "1" "web" None (world_of good_server) eq_refl (or_intror eq_refl)).
Defined.

(** What a successful authentication leaves in the client. *)
Lemma authenticate_success (self : PortainerAPI.t) (w : World) (jwt : string) :
  truthy (PortainerAPI.username self) = true ->
  truthy (PortainerAPI.password self) = true ->
  server w (length (sent w)) (auth_request self) = Reply (JToken jwt) ->
  PortainerAPI._authenticate self w =
  (inr tt,
   PortainerAPI.set_jwt_expiry (Some (next_now w + timedelta 7 30))
     (PortainerAPI.set_jwt_token (Some jwt) self),
   tick_clock (record_request (auth_request self) w)).
Proof.
  intros Hu Hp Hs. unfold PortainerAPI._authenticate, bind, get_self.
  rewrite Hu, Hp. simpl. unfold except_Exception, http.
  fold (auth_request self). rewrite Hs. reflexivity.
Qed.

(** X3: after an authentication that obtained a non-empty token, the
    token is reused until seven and a half hours have passed: a call of
    [_get_headers] before that moment returns the bearer header of that
    token, sends nothing and leaves the client as it is; a call at that
    moment or later authenticates again. *)
Theorem token_reused_until_expiry
    (self : PortainerAPI.t) (w w2 : World) (jwt : string) :
  truthy (PortainerAPI.api_key self) = false ->
  truthy (PortainerAPI.username self) = true ->
  truthy (PortainerAPI.password self) = true ->
  server w (length (sent w)) (auth_request self) = Reply (JToken jwt) ->
  jwt <> "" ->
  let '(r, self', _) := PortainerAPI._authenticate self w in
  r = inr tt
  /\ (next_now w2 < next_now w + timedelta 7 30 ->
      PortainerAPI._get_headers self' w2 = (inr (bearer_headers jwt), self', tick_clock w2))
  /\ (next_now w + timedelta 7 30 <= next_now w2 ->
      PortainerAPI._get_headers self' w2 =
      let '(ra, sa, wa) := PortainerAPI._authenticate self' (tick_clock w2) in
      (match ra with
       | inl e => inl e
       | inr _ => inr (bearer_headers (fstr (PortainerAPI.jwt_token sa)))
       end, sa, wa)).
Proof.
  intros Hk Hu Hp Hs Hj.
  rewrite (authenticate_success self w jwt Hu Hp Hs).
  split; [reflexivity|].
  assert (T : truthy (Some jwt) = true).
  { simpl. destruct (String.eqb_spec jwt ""); [contradiction | reflexivity]. }
  unfold PortainerAPI._get_headers, PortainerAPI.token_stale, bind, get_self. simpl.
  rewrite Hk. simpl. destruct (String.eqb_spec jwt ""); [contradiction|]. simpl.
  fold (next_now w2). split; intros H.
  - replace (next_now w + timedelta 7 30 <=? next_now w2) with false
      by (symmetry; apply Z.leb_gt; exact H).
    reflexivity.
  - replace (next_now w + timedelta 7 30 <=? next_now w2) with true
      by (symmetry; apply Z.leb_le; exact H).
    simpl.
    destruct (PortainerAPI._authenticate _ (tick_clock w2)) as [[[e|[]] sa] wa]; reflexivity.
Qed.

Lemma token_reused_until_expiry_witness :
  (PortainerAPI._authenticate password_client (world_of good_server)).1.1 = inr tt
  /\ PortainerAPI._get_headers
       (PortainerAPI._authenticate password_client (world_of good_server)).1.2
       (world_of dead_server)
     = (inr (bearer_headers "eyJhbGciOi"),
        (PortainerAPI._authenticate password_client (world_of good_server)).1.2,
        tick_clock (world_of dead_server)).
Proof.
  pose proof (token_reused_until_expiry password_client (world_of good_server)
                (world_of dead_server) "eyJhbGciOi" eq_refl eq_refl eq_refl eq_refl
                ltac:(discriminate)) as H.
  destruct (PortainerAPI._authenticate password_client (world_of good_server))
    as [[r self'] w'].
  destruct H as (Hr & Hfresh & _). simpl.
  split; [exact Hr|]. apply Hfresh. reflexivity.
Defined.

(** X4: an authentication that fails, because the request raises or
    because the reply carries no token, sends its one request, raises, and
    leaves the client as it was: a token cached before is still cached,
    with its expiry. *)
Theorem failed_authentication_keeps_client (self : PortainerAPI.t) (w : World) :
  truthy (PortainerAPI.username self) = true ->
  truthy (PortainerAPI.password self) = true ->
  (forall jwt, server w (length (sent w)) (auth_request self) <> Reply (JToken jwt)) ->
  exists e,
    PortainerAPI._authenticate self w
    = (inl e, self, record_request (auth_request self) w)
    /\ (forall e', server w (length (sent w)) (auth_request self) = Failure e' -> e = e').
Proof.
  intros Hu Hp Hs. unfold PortainerAPI._authenticate, bind, get_self.
  rewrite Hu, Hp. simpl. unfold except_Exception, http. fold (auth_request self).
  destruct (server w (length (sent w)) (auth_request self)) as [[jwt|cs|]|e] eqn:R; simpl.
  - now destruct (Hs jwt).
  - eexists. split; [reflexivity|]. discriminate.
  - eexists. split; [reflexivity|]. discriminate.
  - exists e. split; [now destruct (is_Exception e)|]. now intros e' [= ->].
Qed.

Lemma failed_authentication_keeps_client_witness :
  exists e,
    PortainerAPI._authenticate password_client (world_of dead_server)
    = (inl e, password_client,
       record_request (auth_request password_client) (world_of dead_server)).
Proof.
  destruct (failed_authentication_keeps_client password_client (world_of dead_server)
              eq_refl eq_refl ltac:(discriminate)) as (e & H & _).
  exists e. exact H.
Defined.

(** X5: a token that is the empty text is never reused: the client that
    received it counts as having none, so that its next [_get_headers]
    authenticates again whatever the time. *)
Theorem empty_token_is_not_reused (self : PortainerAPI.t) (w w2 : World) :
  truthy (PortainerAPI.api_key self) = false ->
  truthy (PortainerAPI.username self) = true ->
  truthy (PortainerAPI.password self) = true ->
  server w (length (sent w)) (auth_request self) = Reply (JToken "") ->
  let '(r, self', _) := PortainerAPI._authenticate self w in
  r = inr tt
  /\ (forall now, token_stale_at self' now = true)
  /\ sent (PortainerAPI._get_headers self' w2).2
     = (sent w2 ++ [auth_request self])%list.
Proof.
  intros Hk Hu Hp Hs.
  rewrite (authenticate_success self w "" Hu Hp Hs).
  split; [reflexivity|]. split; [reflexivity|].
  unfold PortainerAPI._get_headers, PortainerAPI.token_stale, bind, get_self. simpl.
  rewrite Hk. simpl.
  unfold PortainerAPI._authenticate, bind, get_self. simpl. rewrite Hu, Hp. simpl.
  unfold except_Exception, http.
  change (POST _ [] _) with (auth_request self).
  destruct (server w2 (length (sent w2)) (auth_request self)) as [[jwt|cs|]|e]; simpl;
    try reflexivity.
  destruct (is_Exception e); reflexivity.
Qed.

Lemma empty_token_is_not_reused_witness :
  (forall now,
     token_stale_at
       (PortainerAPI._authenticate password_client (world_of empty_token_server)).1.2 now
     = true)
  /\ sent (PortainerAPI._get_headers
             (PortainerAPI._authenticate password_client (world_of empty_token_server)).1.2
             (world_of good_server)).2
     = [auth_request password_client].
Proof.
  pose proof (empty_token_is_not_reused password_client (world_of empty_token_server)
                (world_of good_server) eq_refl eq_refl eq_refl eq_refl) as H.
  destruct (PortainerAPI._authenticate password_client (world_of empty_token_server))
    as [[r self'] w'].
  destruct H as (_ & Hs & Hq). simpl. split; [exact Hs | exact Hq].
Defined.

(** ** Looking up and restarting *)

Lemma find_container_skip (before rest : list container) (name : string) :
  (forall c, c ∈ before -> ~ name_matches name c) ->
  PortainerAPI.find_container (before ++ rest)%list name
  = PortainerAPI.find_container rest name.
Proof.
  induction before as [|c before IH]; intros H; [reflexivity|].
  change ((c :: before) ++ rest)%list with (c :: (before ++ rest))%list.
  rewrite find_container_cons.
  destruct (PortainerAPI.container_matches name c) eqn:E.
  - exfalso. apply (H c); [left|]. now apply container_matches_spec.
  - apply IH. intros c' Hc'. apply H. now right.
Qed.


(** X7: [restart_container] never returns anything but [True], and when it
    returns, the last request sent is the POST to the restart URL of that
    container, without a body, which the server has answered; every other
    outcome is an exception. *)
Theorem restart_container_returns_true
    (self self' : PortainerAPI.t) (w w' : World) (endpoint : string)
    (id : option string) (b : bool) :
  PortainerAPI.restart_container endpoint id self w = (inr b, self', w') ->
  b = true
  /\ exists (hdrs : headers) (w1 : World) (body : json_body),
      PortainerAPI._get_headers self w = (inr hdrs, self', w1)
      /\ w' = record_request (POST (PortainerAPI.restart_url self endpoint id) hdrs None) w1
      /\ server w1 (length (sent w1))
           (POST (PortainerAPI.restart_url self endpoint id) hdrs None) = Reply body.
Proof.
  unfold PortainerAPI.restart_container, bind, get_self.
  destruct (PortainerAPI._get_headers self w) as [[[e|hdrs] a1] w1]; [discriminate|].
  unfold except_Exception, http, ret, raise.
  destruct (server w1 _ _) as [body|e] eqn:R.
  - intros [= <- <- <-]. split; [reflexivity|]. exists hdrs, w1, body. auto.
  - destruct (is_Exception e); discriminate.
Qed.

Lemma restart_container_returns_true_witness :
  exists (hdrs : headers) (w1 : World) (body : json_body),
    PortainerAPI._get_headers key_client (world_of good_server) = (inr hdrs, key_client, w1)
    /\ server w1 (length (sent w1))
         (POST (PortainerAPI.restart_url key_client "1" (Some "abc123")) hdrs None)
       = Reply body.
Proof.
  destruct (restart_container_returns_true key_client key_client (world_of good_server)
              (record_request
                 (POST (PortainerAPI.restart_url key_client "1" (Some "abc123"))
                    (key_headers key_client) None) (world_of good_server))
              "1" (Some "abc123") true eq_refl)
    as (_ & hdrs & w1 & body & H1 & _ & H3).
  exists hdrs, w1, body. split; assumption.
Defined.

(** ** What one iteration can do *)

Lemma restart_container_at_most_one
    (endpoint : string) (id : option string) (a : PortainerAPI.t) (w : World) :
  (restarts (PortainerAPI.restart_container endpoint id a w).2 <= S (restarts w))%nat.
Proof.
  unfold PortainerAPI.restart_container, bind, get_self.
  pose proof (get_headers_no_restart a w) as [_ Hq].
  destruct (PortainerAPI._get_headers a w) as [[[e|hdrs] a1] w1]; simpl in *; [lia|].
  unfold except_Exception, http, ret, raise.
  destruct (server w1 _ _) as [body|e]; [|destruct (is_Exception e)]; simpl;
    rewrite restarts_record_request; simpl; lia.
Qed.

Lemma act_due_or_idle (s : ContainerRestarter.t) (w : World) (th tm : Z) :
  strptime_HM (ContainerRestarter.restart_time (ContainerRestarter.cfg s)) = Some (th, tm) ->
  (hour_of (next_now w) = th /\ minute_of (next_now w) = tm
   /\ ContainerRestarter.last_restart_date s <> Some (date_of (next_now w)))
  \/ ContainerRestarter.act s w = ContainerRestarter.idle s (tick_clock w).
Proof.
  intros Hp. unfold ContainerRestarter.act, bind.
  rewrite (should_restart_eval _ _ _ _ Hp).
  destruct (Z.eqb_spec (hour_of (next_now w)) th); [|now right].
  destruct (Z.eqb_spec (minute_of (next_now w)) tm); [|now right].
  destruct (decide (ContainerRestarter.last_restart_date s = Some (date_of (next_now w))))
    as [E|E].
  - right. rewrite (bool_decide_eq_true_2 _ E). reflexivity.
  - left. auto.
Qed.

(** The two ways of [act]: a restart is due and [restart_now] runs, or
    nothing is sent and the object stays as it is. *)
Lemma act_cases (s : ContainerRestarter.t) (w : World) :
  (exists th tm,
      strptime_HM (ContainerRestarter.restart_time (ContainerRestarter.cfg s)) = Some (th, tm)
      /\ hour_of (next_now w) = th /\ minute_of (next_now w) = tm
      /\ ContainerRestarter.last_restart_date s <> Some (date_of (next_now w))
      /\ ContainerRestarter.act s w = ContainerRestarter.restart_now s (tick_clock w))
  \/ (sent (ContainerRestarter.act s w).2 = sent w
      /\ (ContainerRestarter.act s w).1.2 = s).
Proof.
  destruct (strptime_HM (ContainerRestarter.restart_time (ContainerRestarter.cfg s)))
    as [[th tm]|] eqn:Hp.
  - destruct (act_due_or_idle s w th tm Hp) as [Hdue|Hnot].
    + left. exists th, tm. destruct Hdue as (Hh & Hm & Hd).
      repeat split; try assumption. apply (act_due s w th tm); assumption.
    + right. rewrite Hnot.
      pose proof (idle_offline s (tick_clock w)) as [_ Hs].
      pose proof (idle_keeps_self s (tick_clock w)) as Hk.
      split; [exact Hs | exact Hk].
  - right. unfold ContainerRestarter.act, ContainerRestarter._should_restart, bind,
      get_self, datetime_now, raise.
    rewrite Hp. split; reflexivity.
Qed.

(** What the handler and the sleep of an iteration leave of its [try]
    block. *)
Lemma iteration_after_attempt (self : ContainerRestarter.t) (w : World) :
  let a := ContainerRestarter.attempt self w in
  let i := ContainerRestarter.iteration self w in
  ContainerRestarter.last_restart_date i.1.2 = ContainerRestarter.last_restart_date a.1.2
  /\ ContainerRestarter.cfg i.1.2 = ContainerRestarter.cfg a.1.2
  /\ ContainerRestarter.api i.1.2 = ContainerRestarter.api a.1.2
  /\ sent i.2 = sent a.2 /\ reads i.2 = reads a.2 /\ clock i.2 = clock a.2.
Proof.
  simpl. rewrite iteration_unfold.
  destruct (ContainerRestarter.attempt self w) as [[[e|[]] s1] w1]; simpl;
    [destruct (is_Exception e)|]; unfold time_sleep;
    repeat match goal with |- context [if ?b then _ else _] => destruct b end;
    simpl; repeat split.
Qed.

Lemma act_at_most_one (s : ContainerRestarter.t) (w : World) :
  (restarts (ContainerRestarter.act s w).2 <= S (restarts w))%nat.
Proof.
  destruct (act_cases s w) as [(th & tm & _ & _ & _ & _ & ->)|[Hs _]].
  - rewrite restart_now_unfold.
    pose proof (restart_container_at_most_one
                  (ContainerRestarter.endpoint_id (ContainerRestarter.cfg s))
                  (ContainerRestarter.container_id s) (ContainerRestarter.api s)
                  (tick_clock w)) as H.
    destruct (PortainerAPI.restart_container _ _ _ (tick_clock w)) as [[[e|b] a] w'];
      simpl in *; exact H.
  - unfold restarts. rewrite Hs. lia.
Qed.

Lemma attempt_at_most_one (self : ContainerRestarter.t) (w : World) :
  (restarts w <= restarts (ContainerRestarter.attempt self w).2 <= S (restarts w))%nat.
Proof.
  pose proof (attempt_evolves self w) as (_ & _ & _ & _ & Hge).
  split; [exact Hge|]. rewrite attempt_unfold.
  pose proof (ensure_resolved_no_restart self w) as [_ Hq].
  destruct (ContainerRestarter.ensure_resolved self w) as [[[e|[]] s0] w0]; simpl in *.
  - lia.
  - rewrite <- Hq. apply act_at_most_one.
Qed.

(** X8: one iteration of the loop sends at most one restart request,
    whatever the server answers and whatever the clock shows; [n]
    iterations send at most [n]. *)
Theorem at_most_one_restart_per_iteration (self : ContainerRestarter.t) (w : World) (n : nat) :
  (restarts (ContainerRestarter.iteration self w).2 <= S (restarts w))%nat
  /\ (restarts (ContainerRestarter.loop n self w).2 <= restarts w + n)%nat.
Proof.
  assert (One : forall s v,
             (restarts (ContainerRestarter.iteration s v).2 <= S (restarts v))%nat).
  { intros s v. destruct (iteration_after_attempt s v) as (_ & _ & _ & Hs & _).
    unfold restarts at 1. rewrite Hs. apply attempt_at_most_one. }
  split; [apply One|].
  revert self w. induction n as [|n IH]; intros self w; simpl; [lia|].
  unfold bind. specialize (One self w).
  destruct (ContainerRestarter.iteration self w) as [[[e|[]] s1] w1]; simpl in *; [lia|].
  specialize (IH s1 w1). lia.
Qed.

(** X9: the container is restarted only at the configured time: if an
    iteration has sent a restart request, then a clock reading taken
    during that iteration had the hour and the minute of the restart time,
    and no restart was recorded for the date of that reading. *)
Theorem restart_only_when_due (self : ContainerRestarter.t) (w : World) :
  restarts (ContainerRestarter.iteration self w).2 <> restarts w ->
  exists (th tm : Z) (i : nat),
    strptime_HM (ContainerRestarter.restart_time (ContainerRestarter.cfg self)) = Some (th, tm)
    /\ (reads w <= i < reads (ContainerRestarter.iteration self w).2)%nat
    /\ hour_of (clock w i) = th /\ minute_of (clock w i) = tm
    /\ ContainerRestarter.last_restart_date self <> Some (date_of (clock w i)).
Proof.
  destruct (iteration_after_attempt self w) as (_ & _ & _ & Hs & Hr & _).
  unfold restarts at 1. rewrite Hs, Hr. fold (restarts (ContainerRestarter.attempt self w).2).
  rewrite attempt_unfold.
  pose proof (ensure_resolved_no_restart self w) as [(Hck & _ & _ & Hrd & _) Hq].
  pose proof (ensure_resolved_keeps_cfg self w) as Kc.
  pose proof (ensure_resolved_keeps_date self w) as Kd.
  destruct (ContainerRestarter.ensure_resolved self w) as [[[e|[]] s0] w0]; simpl in *.
  - intros H. congruence.
  - pose proof (act_moves_clock s0 w0) as (_ & _ & _ & Hrd1 & _). simpl in Hrd1.
    destruct (act_cases s0 w0) as [(th & tm & Hp & Hh & Hm & Hd & _)|[Hsame _]].
    + intros _. exists th, tm, (reads w0). unfold next_now in *. rewrite Hck in *.
      rewrite <- Kc, <- Kd. repeat split; try assumption; lia.
    + intros H. exfalso. apply H. unfold restarts in *. now rewrite Hsame.
Qed.

Lemma restart_only_when_due_witness :
  exists (th tm : Z) (i : nat),
    strptime_HM (ContainerRestarter.restart_time (ContainerRestarter.cfg key_restarter))
    = Some (th, tm)
    /\ hour_of (clock (world_of good_server) i) = th
    /\ minute_of (clock (world_of good_server) i) = tm.
Proof.
  destruct (restart_only_when_due key_restarter (world_of good_server) ltac:(discriminate))
    as (th & tm & i & Hp & _ & Hh & Hm & _).
  exists th, tm, i. repeat split; assumption.
Defined.



(** ** Invariants of the methods *)

Section Maintaining.
Context {S : Type} (I : S -> World -> Prop) (E : exn -> Prop).

Lemma maintains_ret {A} (a : A) : maintains I E (@ret S A a).
Proof. intros s w H. split; [exact H | discriminate]. Qed.

Lemma maintains_raise {A} (e : exn) : E e -> maintains I E (@raise S A e).
Proof. intros He s w H. split; [exact H|]. now intros e' [= <-]. Qed.

Lemma maintains_get_self : maintains I E (@get_self S).
Proof. intros s w H. split; [exact H | discriminate]. Qed.

Lemma maintains_update (f : S -> S) :
  (forall s w, I s w -> I (f s) w) -> maintains I E (update f).
Proof. intros Hf s w H. split; [now apply Hf | discriminate]. Qed.

Lemma maintains_now : (forall s w, I s w -> I s (tick_clock w)) -> maintains I E (@datetime_now S).
Proof. intros Hf s w H. split; [now apply Hf | discriminate]. Qed.

Lemma maintains_http (q : request) :
  (forall s w, I s w -> I s (record_request q w)) ->
  (forall s w e, I s w -> server w (length (sent w)) q = Failure e -> E e) ->
  maintains I E (@http S q).
Proof.
  intros Hq He s w H. unfold http.
  destruct (server w (length (sent w)) q) as [body|e] eqn:R; simpl.
  - split; [now apply Hq | discriminate].
  - split; [now apply Hq|]. intros e' [= <-]. eapply He; eassumption.
Qed.

Lemma maintains_sleep (secs : Z) :
  (forall s w, I s w -> I s (record_nap secs w)) ->
  (forall s w e, I s w -> (time_sleep secs s w).1.1 = inl e -> E e) ->
  maintains I E (@time_sleep S secs).
Proof.
  intros Hn He s w H. split; [|intros e; now apply He].
  unfold time_sleep.
  repeat match goal with |- context [if ?b then _ else _] => destruct b end;
    simpl; auto.
Qed.

Lemma maintains_bind {A B} (m : M S A) (k : A -> M S B) :
  maintains I E m -> (forall a, maintains I E (k a)) -> maintains I E (bind m k).
Proof.
  intros Hm Hk s w H. unfold bind. specialize (Hm s w H).
  destruct (m s w) as [[[e|a] s'] w']; simpl in *.
  - destruct Hm as [HI HE]. split; [exact HI|]. intros e' [= <-]. now apply HE.
  - apply Hk, Hm.
Qed.
End Maintaining.

Lemma maintains_except {S A} (I : S -> World -> Prop) (E' E : exn -> Prop)
    (m : M S A) (h : exn -> M S A) :
  maintains I E' m ->
  (forall e, is_Exception e = true -> maintains I E (h e)) ->
  (forall e, E' e -> is_Exception e = false -> E e) ->
  maintains I E (except_Exception m h).
Proof.
  intros Hm Hh Hpass s w H. unfold except_Exception. specialize (Hm s w H).
  destruct (m s w) as [[[e|a] s'] w']; simpl in *.
  - destruct Hm as [HI HE]. destruct (is_Exception e) eqn:X.
    + now apply Hh.
    + split; [exact HI|]. intros e' [= <-]. apply Hpass; auto.
  - destruct Hm as [HI _]. split; [exact HI | discriminate].
Qed.

Lemma maintains_on_api {A}
    (I : ContainerRestarter.t -> World -> Prop) (Ia : PortainerAPI.t -> World -> Prop)
    (E : exn -> Prop) (m : M PortainerAPI.t A) :
  maintains Ia E m ->
  (forall s w, I s w -> Ia (ContainerRestarter.api s) w) ->
  (forall s w a w', I s w -> Ia a w' -> I (ContainerRestarter.set_api a s) w') ->
  maintains I E (ContainerRestarter.on_api m).
Proof.
  intros Hm Hin Hout s w H. unfold ContainerRestarter.on_api.
  specialize (Hm (ContainerRestarter.api s) w (Hin s w H)).
  destruct (m (ContainerRestarter.api s) w) as [[r a] w']. simpl in *.
  destruct Hm as [HI HE]. split; [eapply Hout; eassumption | exact HE].
Qed.

Lemma maintains_weaken {S A} (I : S -> World -> Prop) (E E' : exn -> Prop) (m : M S A) :
  (forall e, E e -> E' e) -> maintains I E m -> maintains I E' m.
Proof. intros HE Hm s w H. destruct (Hm s w H) as [HI He]. split; auto. Qed.

(** ** A client with an API key *)

(** The history of requests since [base] consists of requests that carry
    the key of the client [a], which is the client in use. *)
Lemma keyed_get_headers (a : PortainerAPI.t) (w : World) :
  truthy (PortainerAPI.api_key a) = true ->
  PortainerAPI._get_headers a w = (inr (key_headers a), a, w).
Proof.
  intros Hk. unfold PortainerAPI._get_headers, bind, get_self. now rewrite Hk.
Qed.

Ltac maintains_step :=
  first
    [ apply maintains_ret | apply maintains_get_self | apply maintains_bind
    | match goal with
      | |- forall _, _ => intro
      | |- maintains _ _ (if ?b then _ else _) => destruct b
      | |- maintains _ _ (match ?x with _ => _ end) => destruct x
      end ].

Ltac maintains_steps := repeat maintains_step.

Lemma keyed_history_refl (a : PortainerAPI.t) (w : World) : keyed_history a (sent w) w.
Proof. exists []. split; [now rewrite app_nil_r | constructor]. Qed.

Lemma keyed_history_request (a : PortainerAPI.t) (base : list request) (q : request) (w : World) :
  keyed_request a q -> keyed_history a base w -> keyed_history a base (record_request q w).
Proof.
  intros Hq (l & Hl & HF). exists (l ++ [q])%list. simpl. split.
  - rewrite Hl. now rewrite app_assoc.
  - apply Forall_app. split; [exact HF | now constructor].
Qed.

Lemma keyed_get_container_id (a : PortainerAPI.t) (base : list request) (endpoint name : string) :
  truthy (PortainerAPI.api_key a) = true ->
  maintains (keyed_client a base) anything (PortainerAPI.get_container_id endpoint name).
Proof.
  intros Hk a' w [-> H]. unfold PortainerAPI.get_container_id, bind, get_self.
  rewrite (keyed_get_headers a w Hk). unfold except_Exception, http.
  assert (Hq : keyed_history a base
                 (record_request (GET (PortainerAPI.list_url a endpoint) (key_headers a)) w))
    by (apply keyed_history_request; [reflexivity | exact H]).
  destruct (server w _ _) as [[jwt|cs|]|e]; simpl;
    try destruct (PortainerAPI.find_container cs name);
    try destruct (is_Exception e); simpl; (split; [split; [reflexivity | exact Hq] | easy]).
Qed.

Lemma keyed_restart_container (a : PortainerAPI.t) (base : list request)
    (endpoint : string) (id : option string) :
  truthy (PortainerAPI.api_key a) = true ->
  maintains (keyed_client a base) anything (PortainerAPI.restart_container endpoint id).
Proof.
  intros Hk a' w [-> H]. unfold PortainerAPI.restart_container, bind, get_self.
  rewrite (keyed_get_headers a w Hk). unfold except_Exception, http.
  assert (Hq : keyed_history a base
                 (record_request
                    (POST (PortainerAPI.restart_url a endpoint id) (key_headers a) None) w))
    by (apply keyed_history_request; [split; reflexivity | exact H]).
  destruct (server w _ _) as [body|e]; simpl;
    try destruct (is_Exception e); simpl; (split; [split; [reflexivity | exact Hq] | easy]).
Qed.

Ltac keyed_crush Hk :=
  maintains_steps;
  first
    [ apply maintains_raise; exact I
    | apply maintains_update; (let K := fresh "K" in intros ? ? K; exact K)
    | apply maintains_now; (let K := fresh "K" in intros ? ? K; exact K)
    | apply maintains_sleep; [(let K := fresh "K" in intros ? ? K; exact K) | intros; exact I]
    | eapply maintains_on_api;
      [ first [ apply keyed_get_container_id; exact Hk
              | apply keyed_restart_container; exact Hk ]
      | (let K := fresh "K" in intros ? ? K; exact K)
      | (let K := fresh "K" in intros ? ? ? ? [_ _] [-> K]; split; [reflexivity | exact K]) ] ].

Lemma keyed_iteration (a : PortainerAPI.t) (base : list request) :
  truthy (PortainerAPI.api_key a) = true ->
  maintains (keyed_scheduler a base) anything ContainerRestarter.iteration.
Proof.
  intros Hk.
  unfold ContainerRestarter.iteration, ContainerRestarter.attempt,
    ContainerRestarter.ensure_resolved, ContainerRestarter.resolve, ContainerRestarter.act,
    ContainerRestarter.restart_now, ContainerRestarter.idle,
    ContainerRestarter._should_restart.
  apply maintains_bind; [eapply (maintains_except _ anything)|]; try (intros; exact I).
  all: keyed_crush Hk.
Qed.

Lemma keyed_startup (a : PortainerAPI.t) (base : list request) :
  truthy (PortainerAPI.api_key a) = true ->
  maintains (keyed_scheduler a base) anything ContainerRestarter.startup.
Proof.
  intros Hk. unfold ContainerRestarter.startup, ContainerRestarter.resolve.
  eapply (maintains_except _ anything); try (intros; exact I).
  all: keyed_crush Hk.
Qed.

Lemma keyed_loop (a : PortainerAPI.t) (base : list request) (n : nat) :
  truthy (PortainerAPI.api_key a) = true ->
  maintains (keyed_scheduler a base) anything (ContainerRestarter.loop n).
Proof.
  intros Hk. induction n as [|n IH]; simpl.
  - apply maintains_ret.
  - apply maintains_bind; [now apply keyed_iteration | intros _; exact IH].
Qed.

(** X11: a scheduler whose client has an API key never authenticates and
    never sends a password: whatever the server answers and however long
    the loop runs, the client object stays as it was built, and every
    request sent carries the X-API-Key header and, if it is a POST, no
    body. *)
Theorem api_key_run_sends_no_credentials
    (self : ContainerRestarter.t) (w : World) (n : nat) :
  truthy (PortainerAPI.api_key (ContainerRestarter.api self)) = true ->
  let '(_, self', w') := ContainerRestarter.run n self w in
  ContainerRestarter.api self' = ContainerRestarter.api self
  /\ exists l : list request,
      sent w' = (sent w ++ l)%list
      /\ Forall (keyed_request (ContainerRestarter.api self)) l.
Proof.
  intros Hk.
  assert (H : maintains (keyed_scheduler (ContainerRestarter.api self) (sent w)) anything
                (ContainerRestarter.run n)).
  { unfold ContainerRestarter.run. apply maintains_bind.
    - now apply keyed_startup.
    - intros _. now apply keyed_loop. }
  destruct (H self w) as [[Ha Hh] _]; [split; [reflexivity | apply keyed_history_refl]|].
  destruct (ContainerRestarter.run n self w) as [[r self'] w']. simpl in *.
  split; assumption.
Qed.

Lemma api_key_run_sends_no_credentials_witness :
  let '(_, self', w') := ContainerRestarter.run 3 key_restarter (world_of flaky_server) in
  ContainerRestarter.api self' = key_client
  /\ exists l : list request, sent w' = l /\ Forall (keyed_request key_client) l.
Proof.
  pose proof (api_key_run_sends_no_credentials key_restarter (world_of flaky_server) 3
                eq_refl) as H.
  destruct (ContainerRestarter.run 3 key_restarter (world_of flaky_server))
    as [[r self'] w'].
  destruct H as (Ha & l & Hl & HF). split; [exact Ha|]. exists l. split; assumption.
Defined.

(** ** The configuration is kept *)

Lemma attempt_keeps_cfg : keeps ContainerRestarter.cfg ContainerRestarter.attempt.
Proof.
  apply keeps_bind; [apply ensure_resolved_keeps_cfg | intros _; apply act_keeps_cfg].
Qed.

Lemma startup_keeps_cfg : keeps ContainerRestarter.cfg ContainerRestarter.startup.
Proof.
  apply keeps_except; [apply resolve_keeps_cfg | intros _; apply keeps_ret].
Qed.

Lemma loop_keeps_cfg (n : nat) : keeps ContainerRestarter.cfg (ContainerRestarter.loop n).
Proof.
  induction n as [|n IH]; simpl; [apply keeps_ret|].
  apply keeps_bind; [apply iteration_keeps_cfg | intros _; exact IH].
Qed.

Lemma run_keeps_cfg (n : nat) : keeps ContainerRestarter.cfg (ContainerRestarter.run n).
Proof.
  apply keeps_bind; [apply startup_keeps_cfg | intros _; apply loop_keeps_cfg].
Qed.

Lemma resolve_evolves_world : preserves evolves ContainerRestarter.resolve.
Proof.
  eapply preserves_weaken; [apply no_restart_evolves | apply resolve_no_restart].
Qed.

(** ** Worlds without Ctrl-C *)

Lemma polite_caught (w : World) (i : nat) (q : request) (e : exn) :
  polite w -> server w i q = Failure e -> caught e.
Proof.
  intros Hs R. unfold caught. destruct e; try reflexivity.
  now destruct (Hs i q).
Qed.

Ltac polite_leaf :=
  first
    [ apply maintains_raise; unfold caught; first [reflexivity | assumption]
    | apply maintains_update; intros ? ? ?; assumption
    | apply maintains_now; intros ? ? ?; assumption
    | apply maintains_http;
      [ intros ? ? ?; assumption
      | intros ? ? ? ? ?; eapply polite_caught; eassumption ]
    | eapply (maintains_except _ caught);
      [ | intros ? ? | intros ? ? ?; unfold caught in *; congruence ] ].

(** [polite_crush tac]: take a method apart; [tac] deals with the calls of
    methods already dealt with. *)
Ltac polite_crush tac := repeat first [ tac | polite_leaf | maintains_step ].

Lemma polite_authenticate : maintains in_polite caught PortainerAPI._authenticate.
Proof. unfold PortainerAPI._authenticate. polite_crush fail. Qed.

Lemma polite_get_headers : maintains in_polite caught PortainerAPI._get_headers.
Proof.
  unfold PortainerAPI._get_headers, PortainerAPI.token_stale.
  polite_crush ltac:(apply polite_authenticate).
Qed.

Lemma polite_get_container_id (endpoint name : string) :
  maintains in_polite caught (PortainerAPI.get_container_id endpoint name).
Proof.
  unfold PortainerAPI.get_container_id, PortainerAPI.not_found.
  polite_crush ltac:(apply polite_get_headers).
Qed.

Lemma polite_restart_container (endpoint : string) (id : option string) :
  maintains in_polite caught (PortainerAPI.restart_container endpoint id).
Proof.
  unfold PortainerAPI.restart_container.
  polite_crush ltac:(apply polite_get_headers).
Qed.

Lemma polite_on_api {A} (m : M PortainerAPI.t A) :
  maintains in_polite caught m -> maintains in_polite caught (ContainerRestarter.on_api m).
Proof.
  intros H. eapply maintains_on_api; [exact H | |]; intros; assumption.
Qed.

Lemma polite_resolve : maintains in_polite caught ContainerRestarter.resolve.
Proof.
  unfold ContainerRestarter.resolve.
  polite_crush ltac:(apply polite_on_api, polite_get_container_id).
Qed.

Lemma polite_attempt : maintains in_polite caught ContainerRestarter.attempt.
Proof.
  unfold ContainerRestarter.attempt, ContainerRestarter.ensure_resolved,
    ContainerRestarter.act, ContainerRestarter.restart_now, ContainerRestarter.idle,
    ContainerRestarter._should_restart.
  polite_crush ltac:(first [apply polite_resolve | apply polite_on_api, polite_restart_container]).
Qed.

#[local] Instance same_naps_refl : Reflexive same_naps.
Proof. intros w. reflexivity. Qed.

#[local] Instance same_naps_trans : Transitive same_naps.
Proof. intros a b c H1 H2. unfold same_naps in *. congruence. Qed.

Ltac naps_crush :=
  preserves_steps;
  first
    [ solve [typeclasses eauto]
    | apply preserves_now; intros; reflexivity
    | apply preserves_http; intros; reflexivity ].

Lemma attempt_same_naps : preserves same_naps ContainerRestarter.attempt.
Proof. unfold ContainerRestarter.attempt. naps_crush. Qed.

Lemma startup_same_naps : preserves same_naps ContainerRestarter.startup.
Proof. unfold ContainerRestarter.startup. naps_crush. Qed.

(** With a length it accepts, [time.sleep] sleeps, and raises only if
    Ctrl-C is pressed meanwhile. *)
Lemma time_sleep_sleepable {S} (secs : Z) (s : S) (w : World) :
  sleepable secs ->
  time_sleep secs s w =
  (if ctrl_c w (length (naps w)) then inl KeyboardInterrupt else inr tt,
   s, record_nap secs w).
Proof.
  intros Hs. unfold time_sleep, sleepable, max_sleep in *.
  repeat match goal with
         | |- context [?a <? ?b] => destruct (Z.ltb_spec a b); try lia
         end.
  simpl. now destruct (ctrl_c w _).
Qed.

(** With a polite server and a length that [time.sleep] accepts, an
    iteration always reaches its sleep, and ends as the sleep does. *)
Lemma polite_iteration (self : ContainerRestarter.t) (w : World) :
  polite w ->
  sleepable (ContainerRestarter.check_interval (ContainerRestarter.cfg self)) ->
  let '(r, self', w') := ContainerRestarter.iteration self w in
  r = (if ctrl_c w (length (naps w)) then inl KeyboardInterrupt else inr tt)
  /\ polite w' /\ ctrl_c w' = ctrl_c w
  /\ ContainerRestarter.cfg self' = ContainerRestarter.cfg self
  /\ naps w' = (naps w ++ [ContainerRestarter.check_interval (ContainerRestarter.cfg self)])%list.
Proof.
  intros Hc Hs.
  rewrite iteration_unfold.
  pose proof (attempt_keeps_cfg self w) as Ka.
  pose proof (attempt_same_naps self w) as Hn. unfold same_naps in Hn.
  pose proof (attempt_evolves self w) as (_ & _ & Hcc & _).
  destruct (polite_attempt self w Hc) as [Hc1 He]. unfold in_polite in Hc1.
  destruct (ContainerRestarter.attempt self w) as [[[e|[]] s1] w1]; simpl in *.
  - rewrite (He e eq_refl).
    rewrite time_sleep_sleepable by (simpl; rewrite ?Ka; assumption).
    simpl. rewrite Ka, Hn, Hcc. repeat split. exact Hc1.
  - rewrite time_sleep_sleepable by (rewrite ?Ka; assumption).
    simpl. rewrite Ka, Hn, Hcc. repeat split. exact Hc1.
Qed.

(** The loop runs until the first sleep during which Ctrl-C is pressed,
    the one after [k] undisturbed sleeps. *)
Lemma loop_until_ctrl_c (k : nat) (self : ContainerRestarter.t) (w : World) (n : nat) :
  polite w ->
  sleepable (ContainerRestarter.check_interval (ContainerRestarter.cfg self)) ->
  (forall i, (i < k)%nat -> ctrl_c w (length (naps w) + i) = false) ->
  let secs := ContainerRestarter.check_interval (ContainerRestarter.cfg self) in
  ((n <= k)%nat ->
   (ContainerRestarter.loop n self w).1.1 = inr tt
   /\ naps (ContainerRestarter.loop n self w).2 = (naps w ++ repeat secs n)%list)
  /\ ((k < n)%nat -> ctrl_c w (length (naps w) + k) = true ->
      (ContainerRestarter.loop n self w).1.1 = inl KeyboardInterrupt
      /\ naps (ContainerRestarter.loop n self w).2 = (naps w ++ repeat secs (S k))%list).
Proof.
  revert k self w. induction n as [|n IH]; intros k self w Hc Hs Hquiet secs.
  - split; [|lia]. intros _. simpl. split; [reflexivity | now rewrite app_nil_r].
  - simpl ContainerRestarter.loop. unfold bind.
    pose proof (polite_iteration self w Hc Hs) as H.
    destruct (ContainerRestarter.iteration self w) as [[r s1] w1].
    destruct H as (-> & Hc1 & Hcc & Kc & Hn). fold secs in Hn.
    destruct k as [|k].
    + split; [lia|]. intros _ Hk. rewrite Nat.add_0_r in Hk. rewrite Hk. simpl.
      split; [reflexivity | exact Hn].
    + assert (H0 : ctrl_c w (length (naps w)) = false).
      { specialize (Hquiet 0%nat). rewrite Nat.add_0_r in Hquiet. apply Hquiet. lia. }
      rewrite H0.
      assert (Hs1 : sleepable (ContainerRestarter.check_interval (ContainerRestarter.cfg s1)))
        by now rewrite Kc.
      assert (Hquiet1 : forall i, (i < k)%nat -> ctrl_c w1 (length (naps w1) + i) = false).
      { intros i Hi. rewrite Hcc, Hn, length_app. simpl.
        replace (length (naps w) + 1 + i)%nat with (length (naps w) + S i)%nat by lia.
        apply Hquiet. lia. }
      destruct (IH k s1 w1 Hc1 Hs1 Hquiet1) as [Hle Hgt]. rewrite Kc in Hle, Hgt.
      fold secs in Hle, Hgt. split.
      * intros Hnk. destruct Hle as [Hr Hnaps]; [lia|].
        destruct (ContainerRestarter.loop n s1 w1) as [[r2 s2] w2]. simpl in *.
        split; [exact Hr|]. rewrite Hnaps, Hn. now rewrite <- app_assoc.
      * intros Hnk Hk. destruct Hgt as [Hr Hnaps]; [lia | |].
        { rewrite Hcc, Hn, length_app. simpl.
          replace (length (naps w) + 1 + k)%nat with (length (naps w) + S k)%nat by lia.
          exact Hk. }
        destruct (ContainerRestarter.loop n s1 w1) as [[r2 s2] w2]. simpl in *.
        split; [exact Hr|]. rewrite Hnaps, Hn. now rewrite <- app_assoc.
Qed.

Lemma polite_startup : maintains in_polite nothing ContainerRestarter.startup.
Proof.
  unfold ContainerRestarter.startup. eapply (maintains_except _ caught).
  - apply polite_resolve.
  - intros e _. apply maintains_ret.
  - intros e He X. unfold caught in He. congruence.
Qed.

(** What [main] comes to when the constructor has succeeded and the
    server is polite: the outcome of the loop. *)
Lemma main_after_startup
    (environ : gmap string string) (w w0 : World) (r : ContainerRestarter.t) (n : nat) :
  ContainerRestarter.__init__ environ tt w = (inr r, tt, w0) ->
  polite w ->
  exists s1 w1,
    polite w1 /\ ctrl_c w1 = ctrl_c w /\ naps w1 = naps w
    /\ ContainerRestarter.cfg s1 = ContainerRestarter.cfg r
    /\ main environ n w =
       (match (ContainerRestarter.loop n s1 w1).1.1 with
        | inl e => exit_status e
        | inr _ => Running
        end, (ContainerRestarter.loop n s1 w1).2).
Proof.
  intros Hi Hc.
  destruct (init_state environ w w0 r Hi) as (-> & _).
  unfold main. rewrite Hi. unfold ContainerRestarter.run, bind.
  destruct (polite_startup r w Hc) as [Hc1 He]. unfold in_polite in Hc1.
  pose proof (startup_same_naps r w) as Hn. unfold same_naps in Hn.
  pose proof (startup_keeps_cfg r w) as Kc.
  assert (Hcc : ctrl_c (ContainerRestarter.startup r w).2 = ctrl_c w).
  { pose proof (preserves_except evolves _ _ resolve_evolves_world
                  (fun _ => preserves_ret evolves tt) r w) as (_ & _ & H & _).
    exact H. }
  destruct (ContainerRestarter.startup r w) as [[[e|[]] s1] w1]; simpl in *.
  - destruct (He e eq_refl).
  - exists s1, w1. repeat split; try assumption.
    now destruct (ContainerRestarter.loop n s1 w1) as [[[e|[]] s2] w2].
Qed.




(** ** The check interval *)

Lemma time_sleep_refused {S} (secs : Z) (s : S) (w : World) :
  ~ sleepable secs ->
  exists e, time_sleep secs s w = (inl e, s, w) /\ caught e.
Proof.
  intros H. unfold time_sleep, sleepable, max_sleep in *.
  repeat match goal with
         | |- context [?a <? ?b] => destruct (Z.ltb_spec a b)
         end; simpl; try (eexists; split; reflexivity); lia.
Qed.

(** X14: a check interval that [time.sleep] refuses (a negative one, or one
    beyond what the C time type holds) passes the constructor, but the loop
    does not survive its first iteration: the iteration does its work and
    then raises, so that [main] has exited once one iteration has been
    observed, with code 1 unless Ctrl-C was pressed during a request. *)
Theorem refused_interval_stops_the_loop
    (environ : gmap string string) (w w0 : World) (r : ContainerRestarter.t) (n : nat) :
  ContainerRestarter.__init__ environ tt w = (inr r, tt, w0) ->
  ~ sleepable (ContainerRestarter.check_interval (ContainerRestarter.cfg r)) ->
  (forall self v,
      ContainerRestarter.cfg self = ContainerRestarter.cfg r ->
      exists e, (ContainerRestarter.iteration self v).1.1 = inl e)
  /\ (exists code, (main environ (S n) w).1 = Exited code)
  /\ (polite w -> (main environ (S n) w).1 = Exited 1).
Proof.
  intros Hi Hs.
  assert (It : forall self v,
             ContainerRestarter.cfg self = ContainerRestarter.cfg r ->
             exists e, (ContainerRestarter.iteration self v).1.1 = inl e
                       /\ (polite v -> caught e)).
  { intros self v Hc. rewrite iteration_unfold.
    pose proof (attempt_keeps_cfg self v) as Ka.
    pose proof (polite_attempt self v) as Hpolite. unfold in_polite in Hpolite.
    destruct (ContainerRestarter.attempt self v) as [[[e|[]] s1] w1]; simpl in *.
    - destruct (is_Exception e) eqn:X.
      + destruct (time_sleep_refused
                    (ContainerRestarter.check_interval (ContainerRestarter.cfg s1))
                    (ContainerRestarter.set_container_id None s1) w1) as (e' & -> & He');
          [now rewrite Ka, Hc|]. exists e'. auto.
      + exists e. split; [reflexivity|]. intros Hv. now apply Hpolite.
    - destruct (time_sleep_refused
                  (ContainerRestarter.check_interval (ContainerRestarter.cfg s1)) s1 w1)
        as (e' & -> & He'); [now rewrite Ka, Hc|]. exists e'. auto. }
  split; [intros self v Hc; destruct (It self v Hc) as (e & He & _); eauto|].
  destruct (init_state environ w w0 r Hi) as (-> & _).
  unfold main. rewrite Hi. unfold ContainerRestarter.run, bind.
  pose proof (startup_keeps_cfg r w) as Kc.
  pose proof (polite_startup r w) as Hst. unfold in_polite in Hst.
  destruct (ContainerRestarter.startup r w) as [[[e|[]] s1] w1]; simpl in *.
  - split; [destruct e; simpl; eauto|]. intros Hc. destruct (Hst Hc) as [_ He].
    destruct (He e eq_refl).
  - destruct (It s1 w1 Kc) as (e & He & Hcaught). unfold bind.
    destruct (ContainerRestarter.iteration s1 w1) as [[r1 s2] w2]. simpl in He. subst r1.
    simpl. split; [destruct e; simpl; eauto|].
    intros Hc. destruct (Hst Hc) as [Hc1 _]. specialize (Hcaught Hc1).
    unfold caught in Hcaught. destruct e; simpl in *; congruence.
Qed.

Lemma refused_interval_stops_the_loop_witness :
  (exists code, (main env_negative_interval 3 (world_of good_server)).1 = Exited code)
  /\ exists e,
       (ContainerRestarter.iteration
          (ContainerRestarter.run 0
             (ContainerRestarter.mk
                (ContainerRestarter.mk_config (Some "http://portainer:9000/")
                   (Some "ptr_secret") None None "1" (Some "web") "03:00" (-1))
                key_client None None)
             (world_of good_server)).1.2
          (world_of dead_server)).1.1 = inl e.
Proof.
  assert (Hs : ~ sleepable (-1)) by (unfold sleepable; lia).
  destruct (refused_interval_stops_the_loop env_negative_interval (world_of good_server)
              (world_of good_server) _ 2 eq_refl Hs) as (Hit & Hmain & _).
  split; [exact Hmain|]. apply Hit. reflexivity.
Defined.



(** ** The scheduler that the constructor returns *)

(** X16: the configuration is read once: after any number of iterations
    the scheduler still has the configuration that the constructor read
    from the environment, and, that configuration having been validated,
    its [_should_restart] never raises: at any moment it returns a
    boolean. *)
Theorem configuration_is_fixed
    (environ : gmap string string) (w w0 w1 w2 : World) (r : ContainerRestarter.t)
    (n : nat) :
  ContainerRestarter.__init__ environ tt w = (inr r, tt, w0) ->
  let self := (ContainerRestarter.run n r w1).1.2 in
  ContainerRestarter.cfg self = ContainerRestarter.cfg r
  /\ ContainerRestarter.read_config environ = inr (ContainerRestarter.cfg r)
  /\ exists b : bool,
      ContainerRestarter._should_restart self w2 = (inr b, self, tick_clock w2).
Proof.
  intros Hi self.
  pose proof (run_keeps_cfg n r w1) as Kc. fold self in Kc.
  destruct (init_state environ w w0 r Hi) as (_ & Hp & _).
  split; [exact Kc|]. split.
  - revert Hi. unfold ContainerRestarter.__init__, raise, ret.
    destruct (ContainerRestarter.read_config environ) as [e|c]; [discriminate|].
    destruct (ContainerRestarter._validate_config c); [discriminate|].
    destruct (ContainerRestarter.portainer_url c); [|discriminate].
    now intros [= <- _].
  - rewrite <- Kc in Hp.
    destruct (strptime_HM (ContainerRestarter.restart_time (ContainerRestarter.cfg self)))
      as [[th tm]|] eqn:E; [|contradiction].
    eexists. apply (should_restart_eval self w2 th tm E).
Qed.

Lemma configuration_is_fixed_witness :
  ContainerRestarter.cfg
    (ContainerRestarter.run 2 key_restarter (world_of flaky_server)).1.2
  = ContainerRestarter.cfg key_restarter.
Proof.
  apply (configuration_is_fixed env_key (world_of good_server) (world_of good_server)
           (world_of flaky_server) (world_of good_server) key_restarter 2 eq_refl).
Defined.

(** ** The lookup at startup *)

Lemma resolve_failure_keeps_container_id
    (self s1 : ContainerRestarter.t) (w w1 : World) (e : exn) :
  ContainerRestarter.resolve self w = (inl e, s1, w1) ->
  ContainerRestarter.container_id s1 = ContainerRestarter.container_id self.
Proof.
  unfold ContainerRestarter.resolve, bind, get_self, update, raise.
  destruct (ContainerRestarter.container_name _); [|now intros [= _ <- _]].
  pose proof (keeps_on_api ContainerRestarter.container_id
                (PortainerAPI.get_container_id
                   (ContainerRestarter.endpoint_id (ContainerRestarter.cfg self)) s)
                (fun _ _ => eq_refl) self w) as K.
  destruct (ContainerRestarter.on_api _ self w) as [[[e'|id] s'] w']; [|discriminate].
  now intros [= _ <- _].
Qed.

(** X17: the lookup at startup is only a first try: whatever error it
    raises, [run] goes on to the loop, without having slept or sent a
    restart request, and the scheduler, having no identifier, begins its
    first iteration with the lookup again.  When the lookup succeeds, the
    loop starts with the identifier in the cache. *)
Theorem startup_failure_is_not_fatal (self : ContainerRestarter.t) (w : World) :
  ContainerRestarter.container_id self = None ->
  let '(r0, _, _) := ContainerRestarter.resolve self w in
  let '(r, s1, w1) := ContainerRestarter.startup self w in
  naps w1 = naps w /\ restarts w1 = restarts w
  /\ match r0 with
     | inl e =>
         if is_Exception e then
           r = inr tt /\ ContainerRestarter.container_id s1 = None
           /\ forall w2, ContainerRestarter.ensure_resolved s1 w2
                         = ContainerRestarter.resolve s1 w2
         else r = inl e
     | inr _ => r = inr tt /\ is_Some (ContainerRestarter.container_id s1)
     end.
Proof.
  intros Hid.
  pose proof (startup_same_naps self w) as Hn. unfold same_naps in Hn.
  pose proof (resolve_no_restart self w) as [_ Hq].
  unfold ContainerRestarter.startup, except_Exception in *.
  destruct (ContainerRestarter.resolve self w) as [[[e|[]] s1] w1] eqn:R; simpl in *.
  - apply resolve_failure_keeps_container_id in R. rewrite Hid in R.
    destruct (is_Exception e); simpl in *.
    + repeat split; try assumption.
      intros w2. unfold ContainerRestarter.ensure_resolved, bind, get_self.
      now rewrite R.
    + repeat split; assumption.
  - repeat split; try assumption. eapply resolve_sets_container_id, R.
Qed.

Lemma startup_failure_is_not_fatal_witness :
  let '(r, s1, w1) := ContainerRestarter.startup key_restarter (world_of dead_server) in
  r = inr tt /\ ContainerRestarter.container_id s1 = None /\ naps w1 = [].
Proof.
  pose proof (startup_failure_is_not_fatal key_restarter (world_of dead_server) eq_refl) as H.
  destruct (ContainerRestarter.startup key_restarter (world_of dead_server))
    as [[r s1] w1].
  destruct (ContainerRestarter.resolve key_restarter (world_of dead_server))
    as [[r0 s0] w0] eqn:R.
  vm_compute in R. injection R as <- _ _.
  destruct H as (Hn & _ & Hr & Hid & _). repeat split; assumption.
Defined.


(** ** Variables that are set to nothing *)

(** X18: a default stands in only for a variable that is not set.  A
    RESTART_TIME or a CHECK_INTERVAL that is set to the empty text is not
    replaced by '03:00' or '60': the constructor raises a [ValueError] and
    [main] exits with code 1, nothing having been sent. *)
Theorem empty_value_is_not_the_default
    (environ : gmap string string) (w : World) (n : nat) :
  environ !! "RESTART_TIME" = Some "" \/ environ !! "CHECK_INTERVAL" = Some "" ->
  (exists msg, ContainerRestarter.__init__ environ tt w = (inl (ValueError msg), tt, w))
  /\ main environ n w = (Exited 1, w).
Proof.
  intros H.
  assert (E : exists msg,
             ContainerRestarter.__init__ environ tt w = (inl (ValueError msg), tt, w)).
  { unfold ContainerRestarter.__init__.
    destruct (ContainerRestarter.read_config environ) as [e|c] eqn:Ec;
      unfold ContainerRestarter.read_config in Ec;
      destruct (py_int (getenv_or environ "CHECK_INTERVAL" "60")) as [k|] eqn:Pi;
      try discriminate.
    - injection Ec as <-. eauto.
    - injection Ec as <-. destruct H as [Ht|Hi].
      + destruct (validate_config_fails
                    (ContainerRestarter.mk_config (getenv environ "PORTAINER_URL")
                       (getenv environ "PORTAINER_API_KEY")
                       (getenv environ "PORTAINER_USERNAME")
                       (getenv environ "PORTAINER_PASSWORD")
                       (getenv_or environ "ENDPOINT_ID" "1")
                       (getenv environ "CONTAINER_NAME")
                       (getenv_or environ "RESTART_TIME" "03:00") k)) as [msg ->];
          [|eauto].
        right. right. right. simpl. unfold getenv_or. now rewrite Ht.
      + unfold getenv_or in Pi. rewrite Hi in Pi. discriminate Pi. }
  split; [exact E|]. destruct E as [msg E]. unfold main. now rewrite E.
Qed.

Lemma empty_value_is_not_the_default_witness :
  main env_empty_time 3 (world_of good_server) = (Exited 1, world_of good_server).
Proof.
  apply (empty_value_is_not_the_default env_empty_time (world_of good_server) 3
           (or_introl eq_refl)).
Defined.

(** ** Where the password goes *)

Lemma discreet_history_refl (a : PortainerAPI.t) (w : World) : discreet_history a (sent w) w.
Proof. exists []. split; [now rewrite app_nil_r | constructor]. Qed.

Lemma discreet_history_request
    (a : PortainerAPI.t) (base : list request) (q : request) (w : World) :
  password_only_to_auth a q -> discreet_history a base w ->
  discreet_history a base (record_request q w).
Proof.
  intros Hq (l & Hl & HF). exists (l ++ [q])%list. simpl. split.
  - rewrite Hl. now rewrite app_assoc.
  - apply Forall_app. split; [exact HF | now constructor].
Qed.

Lemma discreet_authenticate (a : PortainerAPI.t) (base : list request) :
  maintains (discreet_client a base) anything PortainerAPI._authenticate.
Proof.
  intros a' w [(Hu & Hn & Hp) H].
  unfold PortainerAPI._authenticate, bind, get_self.
  destruct (negb _ || negb _); simpl; [repeat split; assumption|].
  unfold except_Exception, http.
  assert (Hq : discreet_history a base
                 (record_request
                    (POST (PortainerAPI.auth_url a') []
                       (Some [("username", PortainerAPI.username a');
                              ("password", PortainerAPI.password a')])) w)).
  { apply discreet_history_request; [|exact H].
    unfold password_only_to_auth, auth_request, PortainerAPI.auth_url.
    now rewrite Hu, Hn, Hp. }
  destruct (server w _ _) as [[jwt|cs|]|e]; simpl;
    try destruct (is_Exception e); simpl; repeat split; assumption.
Qed.

Ltac discreet_leaf :=
  first
    [ apply maintains_raise; exact I
    | apply maintains_update; intros ? ? ?; assumption
    | apply maintains_now; intros ? ? ?; assumption
    | apply maintains_sleep; [intros ? ? ?; assumption | intros; exact I]
    | apply maintains_http;
      [ intros ? ? [? ?]; split;
        [assumption | apply discreet_history_request; [exact I | assumption]]
      | intros; exact I ]
    | eapply (maintains_except _ anything); [ | intros ? ? | intros; exact I ] ].

Ltac discreet_crush tac := repeat first [ tac | discreet_leaf | maintains_step ].

Lemma discreet_get_headers (a : PortainerAPI.t) (base : list request) :
  maintains (discreet_client a base) anything PortainerAPI._get_headers.
Proof.
  unfold PortainerAPI._get_headers, PortainerAPI.token_stale.
  discreet_crush ltac:(apply discreet_authenticate).
Qed.

Lemma discreet_get_container_id (a : PortainerAPI.t) (base : list request)
    (endpoint name : string) :
  maintains (discreet_client a base) anything (PortainerAPI.get_container_id endpoint name).
Proof.
  unfold PortainerAPI.get_container_id.
  discreet_crush ltac:(apply discreet_get_headers).
Qed.

Lemma discreet_restart_container (a : PortainerAPI.t) (base : list request)
    (endpoint : string) (id : option string) :
  maintains (discreet_client a base) anything (PortainerAPI.restart_container endpoint id).
Proof.
  unfold PortainerAPI.restart_container.
  discreet_crush ltac:(apply discreet_get_headers).
Qed.

Lemma discreet_on_api {A} (a : PortainerAPI.t) (base : list request) (m : M PortainerAPI.t A) :
  maintains (discreet_client a base) anything m ->
  maintains (discreet_scheduler a base) anything (ContainerRestarter.on_api m).
Proof.
  intros H. eapply maintains_on_api; [exact H | |].
  - intros s w K. exact K.
  - intros s w a' w' _ K. exact K.
Qed.

Lemma discreet_run (a : PortainerAPI.t) (base : list request) (n : nat) :
  maintains (discreet_scheduler a base) anything (ContainerRestarter.run n).
Proof.
  assert (It : maintains (discreet_scheduler a base) anything ContainerRestarter.iteration).
  { unfold ContainerRestarter.iteration, ContainerRestarter.attempt,
      ContainerRestarter.ensure_resolved, ContainerRestarter.resolve, ContainerRestarter.act,
      ContainerRestarter.restart_now, ContainerRestarter.idle,
      ContainerRestarter._should_restart.
    discreet_crush ltac:(first [ apply discreet_on_api, discreet_get_container_id
                               | apply discreet_on_api, discreet_restart_container ]). }
  unfold ContainerRestarter.run, ContainerRestarter.startup, ContainerRestarter.resolve.
  apply maintains_bind.
  - discreet_crush ltac:(apply discreet_on_api, discreet_get_container_id).
  - intros _. induction n as [|n IH]; simpl.
    + apply maintains_ret.
    + apply maintains_bind; [exact It | intros _; exact IH].
Qed.

(** X19: the password leaves the program only towards the authentication
    URL: whatever the server answers and however long the loop runs, every
    request sent with a body is the authentication request of the client,
    a POST to its URL followed by /api/auth; the list and restart requests
    carry none. *)
Theorem password_only_sent_to_auth_url (self : ContainerRestarter.t) (w : World) (n : nat) :
  exists l : list request,
    sent (ContainerRestarter.run n self w).2 = (sent w ++ l)%list
    /\ Forall (password_only_to_auth (ContainerRestarter.api self)) l.
Proof.
  destruct (discreet_run (ContainerRestarter.api self) (sent w) n self w) as [[_ H] _].
  - split; [repeat split | apply discreet_history_refl].
  - exact H.
Qed.

(** ** Iterations that have nothing to do *)

(** X20: once the identifier is cached, an iteration outside the restart
    minute (or on a day whose restart is recorded) is silent: it sends no
    request at all, reads the clock twice and leaves the scheduler exactly
    as it was. *)
Theorem idle_iteration_is_silent (self : ContainerRestarter.t) (w : World) (th tm : Z) :
  truthy (ContainerRestarter.container_id self) = true ->
  strptime_HM (ContainerRestarter.restart_time (ContainerRestarter.cfg self)) = Some (th, tm) ->
  ~ (hour_of (next_now w) = th /\ minute_of (next_now w) = tm
     /\ ContainerRestarter.last_restart_date self <> Some (date_of (next_now w))) ->
  let '(_, self', w') := ContainerRestarter.iteration self w in
  self' = self /\ sent w' = sent w /\ reads w' = S (S (reads w)).
Proof.
  intros Hid Hp Hnot.
  rewrite iteration_unfold, attempt_unfold.
  unfold ContainerRestarter.ensure_resolved, bind at 1, get_self. rewrite Hid. simpl.
  destruct (act_due_or_idle self w th tm Hp) as [Hdue| ->]; [contradiction|].
  unfold ContainerRestarter.idle, bind, get_self, datetime_now, ret. rewrite Hp. simpl.
  unfold time_sleep.
  repeat match goal with |- context [if ?b then _ else _] => destruct b end;
    simpl; repeat split.
Qed.

Lemma idle_iteration_is_silent_witness :
  let '(_, self', w') := ContainerRestarter.iteration late_restarter (world_of dead_server) in
  self' = late_restarter /\ sent w' = [] /\ reads w' = 2%nat.
Proof.
  apply (idle_iteration_is_silent late_restarter (world_of dead_server) 23 59 eq_refl eq_refl).
  intros (H & _). discriminate H.
Defined.

(** ** From the lookup to the restart *)

Lemma get_headers_keeps_url : keeps PortainerAPI.url PortainerAPI._get_headers.
Proof.
  unfold PortainerAPI._get_headers, PortainerAPI.token_stale, PortainerAPI._authenticate.
  keeps_crush.
Qed.

Lemma get_container_id_keeps_url (endpoint name : string) :
  keeps PortainerAPI.url (PortainerAPI.get_container_id endpoint name).
Proof.
  unfold PortainerAPI.get_container_id, PortainerAPI._get_headers, PortainerAPI.token_stale,
    PortainerAPI._authenticate.
  keeps_crush.
Qed.

(** X21: the container that is restarted is the one that the lookup has
    found: in an iteration that resolves the name to an identifier and in
    which the restart is due, the only request sent after the lookup and
    the headers is the POST to the restart URL of that identifier, on the
    endpoint of the configuration and under the base URL of the client;
    if the headers cannot be had, nothing is sent. *)
Theorem restart_goes_to_the_container_found
    (self : ContainerRestarter.t) (w w1 : World) (name id : string)
    (a1 : PortainerAPI.t) (th tm : Z) :
  truthy (ContainerRestarter.container_id self) = false ->
  ContainerRestarter.container_name (ContainerRestarter.cfg self) = Some name ->
  PortainerAPI.get_container_id
    (ContainerRestarter.endpoint_id (ContainerRestarter.cfg self)) name
    (ContainerRestarter.api self) w = (inr id, a1, w1) ->
  strptime_HM (ContainerRestarter.restart_time (ContainerRestarter.cfg self)) = Some (th, tm) ->
  hour_of (next_now w1) = th -> minute_of (next_now w1) = tm ->
  ContainerRestarter.last_restart_date self <> Some (date_of (next_now w1)) ->
  let '(rh, _, w2) := PortainerAPI._get_headers a1 (tick_clock w1) in
  sent (ContainerRestarter.iteration self w).2 =
  match rh with
  | inl _ => sent w2
  | inr hdrs =>
      (sent w2 ++
       [POST (PortainerAPI.restart_url (ContainerRestarter.api self)
                (ContainerRestarter.endpoint_id (ContainerRestarter.cfg self)) (Some id))
          hdrs None])%list
  end.
Proof.
  intros Hid Hname Hget Hp Hh Hm Hd.
  pose proof (get_container_id_keeps_url
                (ContainerRestarter.endpoint_id (ContainerRestarter.cfg self)) name
                (ContainerRestarter.api self) w) as Ku.
  rewrite Hget in Ku. simpl in Ku.
  destruct (iteration_after_attempt self w) as (_ & _ & _ & -> & _).
  rewrite attempt_unfold.
  assert (E : ContainerRestarter.ensure_resolved self w
              = (inr tt,
                 ContainerRestarter.set_container_id (Some id)
                   (ContainerRestarter.set_api a1 self), w1)).
  { unfold ContainerRestarter.ensure_resolved, bind, get_self. rewrite Hid. cbn [negb].
    unfold ContainerRestarter.resolve, bind, get_self. rewrite Hname.
    unfold ContainerRestarter.on_api. rewrite Hget. reflexivity. }
  rewrite E.
  rewrite (act_due _ w1 th tm) by assumption.
  rewrite restart_now_unfold. simpl.
  unfold PortainerAPI.restart_container, bind, get_self.
  destruct (PortainerAPI._get_headers a1 (tick_clock w1)) as [[[e|hdrs] a2] w2];
    [reflexivity|].
  unfold except_Exception, http, PortainerAPI.restart_url. rewrite Ku.
  destruct (server w2 _ _) as [body|e]; [|destruct (is_Exception e)]; reflexivity.
Qed.

Lemma restart_goes_to_the_container_found_witness :
  sent (ContainerRestarter.iteration key_restarter (world_of good_server)).2
  = [GET "http://portainer:9000/api/endpoints/1/docker/containers/json?all=1"
       [("X-API-Key", "ptr_secret")];
     POST "http://portainer:9000/api/endpoints/1/docker/containers/abc123/restart"
       [("X-API-Key", "ptr_secret")] None].
Proof.
  exact (restart_goes_to_the_container_found key_restarter (world_of good_server)
           (record_request (GET (PortainerAPI.list_url key_client "1")
                              (key_headers key_client)) (world_of good_server))
           "web" "abc123" key_client 3 0 eq_refl eq_refl eq_refl eq_refl eq_refl eq_refl
           ltac:(discriminate)).
Defined.
